(** * Access-control layer of the dashboard front end

    A shallow embedding of the permission hooks
    ([src/hooks/useDynamicPermission.ts], [src/hooks/usePermission.ts]),
    of the client-side token decoder ([src/lib/auth.ts]) and of the route
    guard ([src/middleware.ts]), followed by the properties that the
    specification states about them.

    Conventions.
    - A JavaScript string is a [string]: the sequence of bytes of its UTF-8
      encoding.  Equality, prefix and suffix tests do not depend on the
      encoding; the one place where it matters (the [.] of a regular
      expression) spells the encoded line terminators out.
    - An optional property [f?: T] is an [option T]; [None] is [undefined].
    - A JavaScript number is a [Z]: every number the modelled code reads
      (expiry in seconds, clock in milliseconds, link status) is an
      integer. *)

From Stdlib Require Import ZArith Lia Bool String Ascii.
From stdpp Require Import base list.

Local Open Scope string_scope.
Local Open Scope Z_scope.

(** ** JavaScript helpers *)

Module Js.

(** [s.startsWith(p)] *)
Definition startsWith (s p : string) : bool := String.prefix p s.

(** [s.endsWith(suffix)] *)
Definition endsWith (s suffix : string) : bool :=
  let n := String.length s in
  let k := String.length suffix in
  (k <=? n)%nat && String.eqb (String.substring (n - k) k s) suffix.

(** [arr.includes(x)] on an array of strings *)
Definition includes (x : string) (arr : list string) : bool :=
  existsb (String.eqb x) arr.

(** Truthiness of an optional string: [undefined] and [""] are falsy. *)
Definition truthy_str (o : option string) : bool :=
  match o with
  | Some s => negb (String.eqb s "")
  | None => false
  end.

(** Truthiness of an optional boolean. *)
Definition truthy_bool (o : option bool) : bool :=
  match o with
  | Some b => b
  | None => false
  end.

(** [x === o] for a string [x] and an optional string [o]. *)
Definition strict_eq (x : string) (o : option string) : bool :=
  match o with
  | Some s => String.eqb x s
  | None => false
  end.

(** [arr.includes(o)] for an optional string [o]: [undefined] is not a
    member of an array of strings. *)
Definition includes_opt (o : option string) (arr : list string) : bool :=
  match o with
  | Some s => includes s arr
  | None => false
  end.

(** [`${o}`]: how a template literal prints an optional string. *)
Definition template (o : option string) : string :=
  match o with
  | Some s => s
  | None => "undefined"
  end.

(** A [Set<string>] or the key list of a [Map<string, _>]: insertion
    order is observable through [Array.from], so the model is the list
    of members in insertion order. *)
Definition set_add (x : string) (s : list string) : list string :=
  if includes x s then s else s ++ [x].

(** *** The regular-expression fragments the code uses *)

(** Matching a literal at the start of the input: the rest of the input
    when the literal is there. *)
Fixpoint strip_prefix (p s : string) : option string :=
  match p with
  | EmptyString => Some s
  | String a p' =>
      match s with
      | EmptyString => None
      | String b s' => if Ascii.eqb a b then strip_prefix p' s' else None
      end
  end.

(** The characters that [.] refuses (no [s] flag): LF, CR, and U+2028 and
    U+2029, which are E2 80 A8 and E2 80 A9 in UTF-8. *)
Definition LF : ascii := "010"%char.
Definition CR : ascii := "013"%char.
Definition LS : string := String "226" (String "128" (String "168" EmptyString)).
Definition PS : string := String "226" (String "128" (String "169" EmptyString)).

Fixpoint has_line_terminator (s : string) : bool :=
  match s with
  | EmptyString => false
  | String c s' =>
      Ascii.eqb c LF || Ascii.eqb c CR
      || String.prefix LS s || String.prefix PS s
      || has_line_terminator s'
  end.

(** [(.+)$] applied to what is left of the input: it matches when the
    rest is not empty and holds no line terminator, and then captures
    all of it ([$] without the [m] flag is the end of the input). *)
Definition dot_plus_to_end (rest : string) : option string :=
  if negb (String.eqb rest "") && negb (has_line_terminator rest)
  then Some rest else None.

End Js.

(** ** Types ([src/types], of which only the uses are available) *)

Module Permission.
(** Modelled from the spec: the declaration of [Permission] is not among
    the sources; the spec gives it a [name] (resource slug), an [action]
    (verb) and "other fields", for which [id] stands. *)
Record t := mk { id : Z; name : string; action : string }.
End Permission.

Module Role.
Record t := mk { name : string }.
End Role.

Module Department.
Record t := mk { slug : string }.
End Department.

(** The part of [UserWithPermissions] that the hooks read.  The three
    lists are optional, as the [user.roles?.], [user?.permissions] and
    [user?.departments || []] accesses of the hooks expect. *)
Record UserWithPermissions := mkUser {
  roles : option (list Role.t);
  permissions : option (list Permission.t);
  departments : option (list Department.t)
}.

(** ** [useDynamicPermission] *)

Module DynamicPermission.

Record DynamicPermissionCheck := mkCheck {
  departmentSlug : option string;
  action : option string;
  requireAdmin : option bool;
  requireManager : option bool;
  requireSpecificRole : option string;
  requireAnyRole : option (list string)
}.

(** [`${permission.name}:${permission.action}`] *)
Definition key (p : Permission.t) : string :=
  Permission.name p ++ ":" ++ Permission.action p.

(** The [Map<string, Permission>] of [userPermissions]: entries in
    insertion order. *)
Definition uniqueMap := list (string * Permission.t).

Definition has (m : uniqueMap) (k : string) : bool :=
  existsb (fun e => String.eqb (fst e) k) m.

(** [uniqueMap.set(k, p)] for a key that may or may not be present: a
    present key keeps its position and takes the new value, a new key
    goes to the end. *)
Fixpoint set (m : uniqueMap) (k : string) (p : Permission.t) : uniqueMap :=
  match m with
  | [] => [(k, p)]
  | e :: m' => if String.eqb (fst e) k then (k, p) :: m' else e :: set m' k p
  end.

(** The body of the [forEach] callback. *)
Definition add_permission (m : uniqueMap) (permission : Permission.t) : uniqueMap :=
  let k := key permission in
  if negb (has m k) then set m k permission else m.

(** [Array.from(uniqueMap.values())] *)
Definition values (m : uniqueMap) : list Permission.t := map snd m.

(** The object that [getPermissionsByDepartment] returns. *)
Module DepartmentSummary.
Record t := mk {
  canRead : bool;
  canCreate : bool;
  canUpdate : bool;
  canDelete : bool;
  canImport : bool;
  canExport : bool;
  isManager : bool;
  isUser : bool;
  actions : list string
}.
End DepartmentSummary.

Section Hook.

(** [const { user } = useContext(AuthContext)] *)
Variable user : option UserWithPermissions.

Definition userPermissions : list Permission.t :=
  match user with
  | None => []
  | Some u =>
      match permissions u with
      | None => []
      | Some ps => values (fold_left add_permission ps [])
      end
  end.

Definition userRoles : list string :=
  match user with
  | None => []
  | Some u =>
      match roles u with
      | None => []
      | Some rs => map Role.name rs
      end
  end.

Definition userDepartments : list Department.t :=
  match user with
  | None => []
  | Some u =>
      match departments u with
      | None => []
      | Some ds => ds
      end
  end.

Definition isAdmin : bool := Js.includes "admin" userRoles.

Definition isManager : bool :=
  existsb (fun role => String.eqb role "manager" || Js.startsWith role "manager-")
          userRoles.

Definition checkDynamicPermission (check : DynamicPermissionCheck) : bool :=
  match user with
  | None => false
  | Some _ =>
      if isAdmin then true
      else if Js.truthy_bool (requireAdmin check) && negb isAdmin then false
      else if Js.truthy_bool (requireManager check) && negb isManager then false
      else if Js.truthy_str (requireSpecificRole check)
              && negb (Js.includes_opt (requireSpecificRole check) userRoles)
           then false
      else if match requireAnyRole check with
              | Some rs => negb (existsb (fun role => Js.includes role userRoles) rs)
              | None => false
              end
           then false
      else if Js.truthy_str (departmentSlug check) && Js.truthy_str (action check)
           then existsb
                  (fun permission =>
                     Js.strict_eq (Permission.name permission) (departmentSlug check)
                     && Js.strict_eq (Permission.action permission) (action check))
                  userPermissions
      else if Js.truthy_str (departmentSlug check) && negb (Js.truthy_str (action check))
           then existsb
                  (fun dept => Js.strict_eq (Department.slug dept) (departmentSlug check))
                  userDepartments
                || existsb
                     (fun role =>
                        Js.endsWith role ("-" ++ Js.template (departmentSlug check)))
                     userRoles
      else true
  end.

Definition canReadDepartment (slug : string) : bool :=
  checkDynamicPermission (mkCheck (Some slug) (Some "read") None None None None).

Definition checkAnyPermission (checks : list DynamicPermissionCheck) : bool :=
  existsb checkDynamicPermission checks.

Definition checkAllPermissions (checks : list DynamicPermissionCheck) : bool :=
  forallb checkDynamicPermission checks.

(** [role.match(/^(manager|user)-(.+)$/)]: the second group of the
    match, [None] when the pattern does not match.  The alternatives
    are tried in order. *)
Definition role_match_group2 (role : string) : option string :=
  let alternative kind :=
    match Js.strip_prefix (kind ++ "-") role with
    | Some rest => Js.dot_plus_to_end rest
    | None => None
    end in
  match alternative "manager" with
  | Some g => Some g
  | None => alternative "user"
  end.

Definition getAccessibleDepartments : list string :=
  let departments := [] in
  let departments :=
    fold_left (fun acc dept => Js.set_add (Department.slug dept) acc)
              userDepartments departments in
  let departments :=
    fold_left (fun acc role =>
                 match role_match_group2 role with
                 | Some g => Js.set_add g acc
                 | None => acc
                 end)
              userRoles departments in
  departments.

Definition canCreateInDepartment (slug : string) : bool :=
  checkDynamicPermission (mkCheck (Some slug) (Some "create") None None None None).

Definition canUpdateInDepartment (slug : string) : bool :=
  checkDynamicPermission (mkCheck (Some slug) (Some "update") None None None None).

Definition canDeleteInDepartment (slug : string) : bool :=
  checkDynamicPermission (mkCheck (Some slug) (Some "delete") None None None None).

Definition canImportInDepartment (slug : string) : bool :=
  checkDynamicPermission (mkCheck (Some slug) (Some "import") None None None None).

Definition canExportInDepartment (slug : string) : bool :=
  checkDynamicPermission (mkCheck (Some slug) (Some "export") None None None None).

Definition getPermissionsByDepartment (slug : string) : DepartmentSummary.t :=
  let permissions :=
    List.filter (fun p => String.eqb (Permission.name p) slug) userPermissions in
  let actions := map Permission.action permissions in
  {| DepartmentSummary.canRead := Js.includes "read" actions;
     DepartmentSummary.canCreate := Js.includes "create" actions;
     DepartmentSummary.canUpdate := Js.includes "update" actions;
     DepartmentSummary.canDelete := Js.includes "delete" actions;
     DepartmentSummary.canImport := Js.includes "import" actions;
     DepartmentSummary.canExport := Js.includes "export" actions;
     DepartmentSummary.isManager :=
       Js.includes "manager" userRoles
       || Js.includes ("manager-" ++ slug) userRoles;
     DepartmentSummary.isUser :=
       Js.includes "user" userRoles
       || Js.includes ("user-" ++ slug) userRoles;
     DepartmentSummary.actions := actions |}.

End Hook.

(** *** Vocabulary of the statements *)

(** The check [{ departmentSlug: d, action: a }]. *)
Definition department_action (d a : string) : DynamicPermissionCheck :=
  mkCheck (Some d) (Some a) None None None None.

(** The check [{ action: a }]. *)
Definition action_only (a : string) : DynamicPermissionCheck :=
  mkCheck None (Some a) None None None None.

(** The permission snapshot holds an entry for [(d, a)]. *)
Definition grants (user : option UserWithPermissions) (d a : string) : Prop :=
  exists p, p ∈ userPermissions user /\ Permission.name p = d /\ Permission.action p = a.

(** What the loop maintains: [ps] is the part of the list already
    visited, [m] the map at that point. *)
Record loop_invariant (ps : list Permission.t) (m : uniqueMap) : Prop := {
  inv_keys : map fst m = map key (values m);
  inv_nodup : NoDup (map fst m);
  inv_dom : forall k, k ∈ map fst m <-> exists p, p ∈ ps /\ key p = k;
  inv_first : forall q, q ∈ values m ->
              exists l1 l2, ps = (l1 ++ q :: l2)%list
                            /\ forall p, p ∈ l1 -> key p <> key q;
  inv_order : sublist (values m) ps
}.

(** The check [{ departmentSlug: d }]. *)
Definition department_only (d : string) : DynamicPermissionCheck :=
  mkCheck (Some d) None None None None None.

(** The check with its four role requirements taken away. *)
Definition without_requirements (check : DynamicPermissionCheck) : DynamicPermissionCheck :=
  mkCheck (departmentSlug check) (action check) None None None None.

(** [role] ends with a dash followed by [d]. *)
Definition dash_suffix (role d : string) : Prop :=
  exists front, role = (front ++ "-" ++ d)%string.

(** [role] is [manager] or starts with [manager-]. *)
Definition manager_role (role : string) : Prop :=
  role = "manager" \/ exists rest, role = ("manager-" ++ rest)%string.

(** The text has no colon. *)
Fixpoint colon_free (s : string) : bool :=
  match s with
  | EmptyString => true
  | String c s' => negb (Ascii.eqb c ":") && colon_free s'
  end.

(** What [/^(manager|user)-(.+)$/] means: [role] is one of the two
    kinds, a dash, and a non-empty rest without line terminator, which
    is the second group. *)
Definition captures (role g : string) : Prop :=
  exists kind, (kind = "manager" \/ kind = "user")
               /\ role = (kind ++ "-" ++ g)%string
               /\ g <> ""
               /\ Js.has_line_terminator g = false.

End DynamicPermission.

(** ** [usePermission], the older evaluator *)

Module LegacyPermission.

(** Modelled from the spec: [PermissionCheckParams] is declared in
    [src/types], which is not among the sources; [checkPermission]
    destructures a [departmentSlug] and an [action] from it and
    [canAccess] passes two strings. *)
Record PermissionCheckParams := mkParams {
  departmentSlug : string;
  action : string
}.

Section Hook.

Variable user : option UserWithPermissions.

(** [getUserPermissions] repeats the deduplication of
    [useDynamicPermission] line for line. *)
Definition getUserPermissions (u : UserWithPermissions) : list Permission.t :=
  match permissions u with
  | None => []
  | Some ps =>
      DynamicPermission.values
        (fold_left DynamicPermission.add_permission ps [])
  end.

Definition checkPermission (params : PermissionCheckParams) : bool :=
  match user with
  | None => false
  | Some u =>
      let isAdmin :=
        match roles u with
        | Some rs => existsb (fun role => String.eqb (Role.name role) "admin") rs
        | None => false
        end in
      if isAdmin then true
      else
        let userRoles :=
          match roles u with
          | Some rs => map Role.name rs
          | None => []
          end in
        let requiredRoles :=
          [ "manager-" ++ departmentSlug params; "user-" ++ departmentSlug params ] in
        let hasRole :=
          existsb (fun role => Js.includes role requiredRoles) userRoles in
        let userPermissions := getUserPermissions u in
        let hasPermission :=
          existsb
            (fun permission =>
               String.eqb (Permission.name permission) (departmentSlug params)
               && String.eqb (Permission.action permission) (action params))
            userPermissions in
        hasPermission
  end.

Definition canAccess (departmentSlug action : string) : bool :=
  checkPermission (mkParams departmentSlug action).

End Hook.

End LegacyPermission.

(** ** Values read from decoded JSON *)

Module Json.

#[local] Set Warnings "-register-all".

(** What [JSON.parse] returns.  An object is the list of its own
    properties, each name once. *)
Inductive value :=
| Null
| Bool (b : bool)
| Num (n : Z)
| Str (s : string)
| Arr (elements : list value)
| Obj (properties : list (string * value)).

(** The result of an expression that may raise. *)
Inductive completion (A : Type) :=
| Normal (a : A)
| Throw.
Arguments Normal {A} a.
Arguments Throw {A}.

Fixpoint lookup (f : string) (properties : list (string * value)) : option value :=
  match properties with
  | [] => None
  | (k, v) :: rest => if String.eqb k f then Some v else lookup f rest
  end.

(** [v.f] for one of the property names the code reads ([exp], [roles],
    [zaloLinkStatus], [name], [access_token], ...): a [TypeError] on
    [null], the property on an object, [undefined] on a number, boolean,
    string or array, none of which has a property of those names. *)
Definition get (v : value) (f : string) : completion (option value) :=
  match v with
  | Null => Throw
  | Obj properties => Normal (lookup f properties)
  | _ => Normal None
  end.

Definition truthy (v : value) : bool :=
  match v with
  | Null => false
  | Bool b => b
  | Num n => negb (n =? 0)
  | Str s => negb (String.eqb s "")
  | Arr _ | Obj _ => true
  end.

(** Truthiness of a value that may be [undefined]. *)
Definition truthy_opt (o : option value) : bool :=
  match o with
  | Some v => truthy v
  | None => false
  end.

(** [a || b] where [a] may be [undefined] *)
Definition or_else (a : option value) (b : value) : value :=
  match a with
  | Some v => if truthy v then v else b
  | None => b
  end.

(** [arr.includes(s)] for a string [s] and an array of arbitrary
    values: only the string [s] itself is the same value as [s]. *)
Definition includes_str (s : string) (arr : list value) : bool :=
  existsb (fun v => match v with Str t => String.eqb t s | _ => false end) arr.

End Json.

(** ** [src/lib/auth.ts]: the client-side decoder *)

Module Auth.

Import Json.

Record TokenUser := mkTokenUser {
  id : option value;
  username : value;
  fullName : value;
  status : string;
  isBlock : bool;
  roles : value;
  departments : value
}.

Section Decoder.

(** [JSON.parse(atob(token.split(".")[1]))]; [None] when one of the
    three raises. *)
Variable parse_segment : string -> option value.

(** [ToNumber] on the values that are not numbers already, where the
    result is an integer; [None] is [NaN]. *)
Variable to_number : value -> option Z.

(** [Date.now()], in milliseconds *)
Variable now : Z.

(** [v < Date.now() / 1000] *)
Definition before_now (v : value) : bool :=
  match v with
  | Num e => e * 1000 <? now
  | _ => match to_number v with
         | Some e => e * 1000 <? now
         | None => false
         end
  end.

Definition getUserFromToken (token : string) : option TokenUser :=
  match parse_segment token with
  | None => None
  | Some payload =>
      match get payload "exp", get payload "sub", get payload "username",
            get payload "fullName", get payload "roles", get payload "departments" with
      | Normal exp, Normal sub, Normal username, Normal fullName,
        Normal roles, Normal departments =>
          if truthy_opt exp && match exp with Some e => before_now e | None => false end
          then None
          else Some {| id := sub;
                       username := or_else username (Str "");
                       fullName := or_else fullName (Str "");
                       status := "active";
                       isBlock := false;
                       roles := or_else roles (Arr []);
                       departments := or_else departments (Arr []) |}
      | _, _, _, _, _, _ => None
      end
  end.

End Decoder.

End Auth.

(** ** [src/middleware.ts]: the route guard *)

Module Middleware.

Import Json.

(** Modelled from the spec: [src/lib/nav-items] is not among the
    sources; the spec describes the table as an ordered list of groups
    [{title, items: [{title, url, roles?}]}]. *)
Record NavItem := mkItem {
  item_title : string;
  url : string;
  item_roles : option (list string)
}.

Record NavGroup := mkGroup {
  title : string;
  items : list NavItem
}.

(** What the guard reads of a [NextRequest]. *)
Record NextRequest := mkRequest {
  pathname : string;              (* request.nextUrl.pathname *)
  href : string;                  (* request.nextUrl.href *)
  access_token : option string;   (* request.cookies.get('access_token')?.value *)
  refresh_token : option string   (* request.cookies.get('refresh_token')?.value *)
}.

(** How the call to [/auth/refresh] ends. *)
Inductive FetchResult :=
| NetworkError                                  (* [fetch] rejects *)
| HttpResponse (ok : bool) (body : option value). (* [None]: [json()] rejects *)

(** What the guard answers. *)
Inductive NextResponse :=
| Next                                (* NextResponse.next() *)
| NextWithCookies (access : value) (refresh : option value)
                                      (* next(), with the new cookies set *)
| Redirect (path : string)            (* redirect(new URL(path, request.url)) *)
| RedirectToLogin (callbackUrl : option string).
                                      (* to /login, both cookies deleted *)

(** The answer, and the refresh tokens posted to [/auth/refresh] on the
    way, in order. *)
Record Outcome := mkOutcome {
  response : NextResponse;
  refresh_calls : list string
}.

(** The three variables that the decoding block assigns. *)
Record Session := mkSession {
  isValid : bool;
  userRoles : list value;
  zaloLinkStatus : Z
}.

(** Statements of the [try] block: they update the variables and either
    complete or raise; what was assigned before a raise stays
    assigned. *)
Definition stmt (A : Type) := Session -> completion A * Session.

Definition ret {A} (a : A) : stmt A := fun s => (Normal a, s).

Definition bind {A B} (m : stmt A) (k : A -> stmt B) : stmt B :=
  fun s =>
    match m s with
    | (Normal a, s') => k a s'
    | (Throw, s') => (Throw, s')
    end.

Definition eval {A} (c : completion A) : stmt A := fun s => (c, s).

Definition assign (f : Session -> Session) : stmt unit :=
  fun s => (Normal tt, f s).

(** [try { m } catch (error) { console.error(...) }] *)
Definition try_catch (m : stmt unit) (s : Session) : Session := snd (m s).

Declare Scope stmt_scope.
Delimit Scope stmt_scope with stmt.
Notation "'let*' x ':=' m 'in' k" := (bind m (fun x => k))
  (at level 10, x name, m at level 100, k at level 200) : stmt_scope.
Notation "m ;;; k" := (bind m (fun _ => k))
  (at level 100, k at level 200, right associativity) : stmt_scope.

(** [payload.roles.map((role: any) => role.name || role)] *)
Fixpoint map_roles (roles : list value) : completion (list value) :=
  match roles with
  | [] => Normal []
  | role :: rest =>
      match get role "name" with
      | Throw => Throw
      | Normal name =>
          match map_roles rest with
          | Throw => Throw
          | Normal rest' => Normal (or_else name role :: rest')
          end
      end
  end.

(** [let isValid = false; let userRoles = []; let zaloLinkStatus = 0] *)
Definition initial : Session := mkSession false [] 0.

Definition zaloLinkPath : string := "/dashboard/link-account".
Definition publicPaths : list string := ["/login"].

Section Guard.

Variable navItems : list NavGroup.

(** [JSON.parse(base64UrlDecode(token.split('.')[1]))], [None] when
    one of the three raises.  [base64UrlDecode] is imported from
    [./lib/auth], whose available version does not define it. *)
Variable parse_segment : string -> option value.

(** [Date.now()], in milliseconds *)
Variable now : Z.

(** The answer of the backend to a refresh request. *)
Variable fetch_refresh : string -> FetchResult.

Definition hasRole (userRoles : list value) (requiredRoles : list string) : bool :=
  existsb (fun role => includes_str role userRoles) requiredRoles.

(** [!item.roles || hasRole(userRoles, item.roles)] *)
Definition item_open (userRoles : list value) (item : NavItem) : bool :=
  match item_roles item with
  | None => true
  | Some rs => hasRole userRoles rs
  end.

Fixpoint first_in_items (userRoles : list value) (l : list NavItem) : option string :=
  match l with
  | [] => None
  | item :: rest =>
      if item_open userRoles item then Some (url item)
      else first_in_items userRoles rest
  end.

Fixpoint first_in_groups (userRoles : list value) (gs : list NavGroup) : option string :=
  match gs with
  | [] => None
  | group :: rest =>
      match first_in_items userRoles (items group) with
      | Some u => Some u
      | None => first_in_groups userRoles rest
      end
  end.

Definition getFirstAccessibleUrl (userRoles : list value) : option string :=
  first_in_groups userRoles navItems.

Definition isAccessible (userRoles : list value) (u : string) : bool :=
  existsb
    (fun group =>
       existsb (fun item => String.eqb (url item) u && item_open userRoles item)
               (items group))
    navItems.

(** The three statements of the [try] block that follow
    [JSON.parse]. *)
Definition read_exp (payload : value) : stmt unit :=
  (let* exp := eval (get payload "exp") in
   match exp with
   | Some (Num e) =>
       (* exp && typeof exp === 'number' && exp > 0 *)
       if negb (e =? 0) && (e >? 0)
       then assign (fun s => mkSession (now <? e * 1000) (userRoles s) (zaloLinkStatus s))
       else ret tt
   | _ => ret tt
   end)%stmt.

Definition read_roles (payload : value) : stmt unit :=
  (let* roles := eval (get payload "roles") in
   match roles with
   | Some (Arr rs) =>
       (* payload.roles && Array.isArray(payload.roles) *)
       let* names := eval (map_roles rs) in
       assign (fun s => mkSession (isValid s) names (zaloLinkStatus s))
   | _ => ret tt
   end)%stmt.

Definition read_status (payload : value) : stmt unit :=
  (let* status := eval (get payload "zaloLinkStatus") in
   match status with
   | Some (Num n) =>
       (* typeof payload.zaloLinkStatus === 'number' *)
       assign (fun s => mkSession (isValid s) (userRoles s) n)
   | _ => ret tt
   end)%stmt.

Definition read_payload (payload : value) : stmt unit :=
  (read_exp payload ;;; read_roles payload ;;; read_status payload)%stmt.

(** Lines 36 to 61: the variables after the decoding block. *)
Definition decode (token : option string) : Session :=
  if Js.truthy_str token then
    try_catch
      (match parse_segment (Js.template token) with
       | Some payload => read_payload payload
       | None => eval Throw
       end)
      initial
  else initial.

(** Lines 129 to 136: the redirection to the login page, which
    carries the requested address unless the path starts with
    [/login], and deletes both cookies. *)
Definition login_redirect (request : NextRequest) : NextResponse :=
  RedirectToLogin
    (if negb (Js.startsWith (pathname request) "/login")
     then Some (href request) else None).

(** Lines 89 to 137: the session is not valid. *)
Definition recover (request : NextRequest) : Outcome :=
  let login := login_redirect request in
  if Js.truthy_str (refresh_token request) then
    let refreshToken := Js.template (refresh_token request) in
    let calls := [refreshToken] in
    match fetch_refresh refreshToken with
    | HttpResponse true (Some data) =>
        match get data "access_token" with
        | Normal (Some access) =>
            if truthy access then
              match get data "refresh_token" with
              | Normal (Some refresh) =>
                  mkOutcome
                    (NextWithCookies access
                       (if truthy refresh then Some refresh else None))
                    calls
              | _ => mkOutcome (NextWithCookies access None) calls
              end
            else mkOutcome login calls
        | _ => mkOutcome login calls
        end
    | _ => mkOutcome login calls
    end
  else mkOutcome login [].

(** [if (firstUrl) return NextResponse.redirect(...)]: the url to
    redirect to, when there is one and it is truthy. *)
Definition landing (userRoles : list value) : option string :=
  match getFirstAccessibleUrl userRoles with
  | Some u => if negb (String.eqb u "") then Some u else None
  | None => None
  end.

Definition allUrls : list string :=
  flat_map (fun g => map url (items g)) navItems.

Definition middleware (request : NextRequest) : Outcome :=
  let pathname := pathname request in
  let s := decode (access_token request) in
  if isValid s && (zaloLinkStatus s =? 2) then
    if negb (String.eqb pathname zaloLinkPath)
    then mkOutcome (Redirect zaloLinkPath) []
    else mkOutcome Next []
  else if isValid s && String.eqb pathname zaloLinkPath then
    mkOutcome Next []
  else
    match
      (if isValid s
          && (String.eqb pathname "/" || String.eqb pathname "/login"
              || String.eqb pathname "/dashboard")
       then landing (userRoles s) else None)
    with
    | Some firstUrl => mkOutcome (Redirect firstUrl) []
    | None =>
        if Js.includes pathname publicPaths then mkOutcome Next []
        else if negb (isValid s) then recover request
        else
          match
            (if Js.includes pathname allUrls
                && negb (isAccessible (userRoles s) pathname)
             then landing (userRoles s) else None)
          with
          | Some firstUrl => mkOutcome (Redirect firstUrl) []
          | None => mkOutcome Next []
          end
    end.

End Guard.

(** *** Vocabulary of the statements *)

(** The items of the table, group after group. *)
Definition all_items (navItems : list NavGroup) : list NavItem :=
  flat_map items navItems.

(** The [roles] of the payload can be read without raising: they are
    not an array, or an array without [null] entry. *)
Definition roles_readable (payload : value) : bool :=
  match get payload "roles" with
  | Normal (Some (Arr rs)) =>
      match map_roles rs with
      | Normal _ => true
      | Throw => false
      end
  | Normal _ => true
  | Throw => false
  end.

(** The paths from which a valid session is sent to its landing page
    (line 78). *)
Definition landing_paths : list string := ["/"; "/login"; "/dashboard"].

(** Every role of [small] is a role of [large]. *)
Definition roles_included (small large : list value) : Prop :=
  forall role : string, Str role ∈ small -> Str role ∈ large.

(** The refresh call succeeded and brought a truthy [access_token]. *)
Definition refreshed (result : FetchResult) (access : value) : Prop :=
  exists data, result = HttpResponse true (Some data)
               /\ get data "access_token" = Normal (Some access)
               /\ truthy access = true.

End Middleware.

(** ** [src/lib/auth.ts], continued: the roles of a token *)

Module AuthRoles.

Import Json.

Section Decoder.

(** [JSON.parse(atob(token.split(".")[1]))]; [None] when one of the
    three raises. *)
Variable parse_segment : string -> option value.

Variable to_number : value -> option Z.

(** [Date.now()], in milliseconds *)
Variable now : Z.

(** The mapping [payload.roles.map((role: any) => role.name || role)] is
    the one of the route guard. *)
Definition getUserRolesFromToken (token : string) : list value :=
  match parse_segment token with
  | None => []
  | Some payload =>
      match get payload "exp" with
      | Throw => []
      | Normal exp =>
          if truthy_opt exp
             && match exp with
                | Some e => Auth.before_now to_number now e
                | None => false
                end
          then []
          else
            match get payload "roles" with
            | Normal (Some (Arr rs)) =>
                (* payload.roles && Array.isArray(payload.roles) *)
                match Middleware.map_roles rs with
                | Normal names => names
                | Throw => []
                end
            | _ => []
            end
      end
  end.

End Decoder.

End AuthRoles.

(** * Properties *)

(** ** Facts about the JavaScript helpers *)

Section JsFacts.

Lemma existsb_elem_of {A} (f : A -> bool) (l : list A) :
  existsb f l = true <-> exists x, x ∈ l /\ f x = true.
Proof.
  rewrite existsb_exists. split; intros (x & Hx & Hf); exists x; split; auto;
    by apply list_elem_of_In.
Qed.

Lemma includes_elem_of (x : string) (arr : list string) :
  Js.includes x arr = true <-> x ∈ arr.
Proof.
  unfold Js.includes. rewrite existsb_elem_of. split.
  - intros (y & Hy & Heq). apply String.eqb_eq in Heq. by subst.
  - intros H. exists x. split; [done | apply String.eqb_refl].
Qed.

Lemma truthy_str_Some (s : string) :
  Js.truthy_str (Some s) = true <-> s <> "".
Proof.
  simpl. rewrite negb_true_iff. split.
  - intros H ->. discriminate.
  - intros H. apply String.eqb_neq. exact H.
Qed.

Lemma truthy_str_empty : Js.truthy_str (Some "") = false.
Proof. reflexivity. Qed.

Lemma strict_eq_Some (x s : string) :
  Js.strict_eq x (Some s) = true <-> x = s.
Proof. apply String.eqb_eq. Qed.

Lemma strip_prefix_Some (p s rest : string) :
  Js.strip_prefix p s = Some rest <-> s = (p ++ rest)%string.
Proof.
  revert s. induction p as [|a p IH]; intros s; simpl.
  - split; [intros [= ->] | intros ->]; reflexivity.
  - destruct s as [|b s]; [split; discriminate|].
    destruct (Ascii.eqb a b) eqn:E.
    + apply Ascii.eqb_eq in E. subst b. rewrite IH.
      split; [intros -> | intros [= ->]]; reflexivity.
    + apply Ascii.eqb_neq in E. split; [discriminate|].
      intros [= Hab _]. congruence.
Qed.

End JsFacts.

(** ** The permission evaluator *)

Module DynamicPermissionFacts.

Import DynamicPermission.

Lemma isAdmin_elem_of user : isAdmin user = true <-> "admin" ∈ userRoles user.
Proof. apply includes_elem_of. Qed.

Lemma some_permission_grants user d a :
  existsb
    (fun permission =>
       Js.strict_eq (Permission.name permission) (Some d)
       && Js.strict_eq (Permission.action permission) (Some a))
    (userPermissions user) = true
  <-> grants user d a.
Proof.
  rewrite existsb_elem_of. unfold grants.
  split; intros (p & Hp & H); exists p; split; try done.
  - apply andb_true_iff in H as [H1 H2].
    by apply strict_eq_Some in H1, H2.
  - destruct H as [<- <-]. simpl. by rewrite !String.eqb_refl.
Qed.

(** What the evaluator answers to a non-admin for a department and an
    action that are both truthy. *)
Lemma check_department_action_nonadmin u d a :
  isAdmin (Some u) = false -> d <> "" -> a <> "" ->
  checkDynamicPermission (Some u) (department_action d a)
  = existsb
      (fun permission =>
         Js.strict_eq (Permission.name permission) (Some d)
         && Js.strict_eq (Permission.action permission) (Some a))
      (userPermissions (Some u)).
Proof.
  intros Hadm Hd Ha. unfold checkDynamicPermission, department_action.
  rewrite Hadm. cbn [requireAdmin requireManager requireSpecificRole requireAnyRole
                     departmentSlug action Js.truthy_bool andb].
  apply truthy_str_Some in Hd, Ha.
  change (Js.truthy_str None) with false. cbn [andb].
  by rewrite Hd, Ha.
Qed.

(** C2. An authenticated user who holds the role [admin] passes every
    check, whatever the check asks for: the admin test comes before the
    role requirements and before the department and action clauses. *)
Theorem admin_passes_every_check (u : UserWithPermissions) (rs : list Role.t)
    (check : DynamicPermissionCheck) :
  roles u = Some rs ->
  (exists r, r ∈ rs /\ Role.name r = "admin") ->
  checkDynamicPermission (Some u) check = true.
Proof.
  intros Hrs (r & Hr & Hname).
  assert (Hadm : isAdmin (Some u) = true).
  { apply isAdmin_elem_of. unfold userRoles. rewrite Hrs.
    rewrite <- Hname. by apply list_elem_of_fmap_2. }
  unfold checkDynamicPermission. by rewrite Hadm.
Qed.

Lemma admin_passes_every_check_witness :
  let u := mkUser (Some [Role.mk "user-cong-no"; Role.mk "admin"]) (Some []) None in
  checkDynamicPermission (Some u)
    (mkCheck (Some "cong-no") (Some "delete") None (Some true)
             (Some "manager-kho") (Some ["manager"])) = true.
Proof.
  intros u.
  apply (admin_passes_every_check u [Role.mk "user-cong-no"; Role.mk "admin"]).
  - reflexivity.
  - exists (Role.mk "admin"). split; [|reflexivity].
    apply list_elem_of_In. simpl. right. left. reflexivity.
Defined.

(** C10. A check that sets only [action] is allowed for every
    authenticated user, admin or not, whatever the permissions: both
    permission clauses ask for a department, so the evaluation reaches
    the final [return true]. *)
Theorem action_only_is_allowed (u : UserWithPermissions) (a : string) :
  checkDynamicPermission (Some u) (action_only a) = true.
Proof.
  unfold checkDynamicPermission, action_only.
  destruct (isAdmin (Some u)); [reflexivity|].
  reflexivity.
Qed.

(** C1, as the code has it.  For every authenticated user and every
    check [{departmentSlug, action}] whose two fields are non-empty
    strings (and which has no role requirement), the evaluator answers
    true if and only if the deduplicated permission set holds an entry
    whose name is the department slug and whose action is the action, or
    the user's roles include [admin]. *)
Theorem department_action_iff_grant_or_admin
    (u : UserWithPermissions) (d a : string) :
  d <> "" -> a <> "" ->
  (checkDynamicPermission (Some u) (department_action d a) = true
   <-> (exists p, p ∈ userPermissions (Some u)
                  /\ Permission.name p = d /\ Permission.action p = a)
       \/ "admin" ∈ userRoles (Some u)).
Proof.
  intros Hd Ha. destruct (isAdmin (Some u)) eqn:Hadm.
  - unfold checkDynamicPermission. rewrite Hadm.
    apply isAdmin_elem_of in Hadm. tauto.
  - rewrite check_department_action_nonadmin by done.
    rewrite some_permission_grants. unfold grants.
    assert ("admin" ∉ userRoles (Some u)).
    { intros H%isAdmin_elem_of. congruence. }
    tauto.
Qed.

Lemma department_action_iff_grant_or_admin_witness :
  let u := mkUser (Some [Role.mk "user-cong-no"])
                  (Some [Permission.mk 7 "cong-no" "read"]) None in
  checkDynamicPermission (Some u) (department_action "cong-no" "read") = true
  <-> (exists p, p ∈ userPermissions (Some u)
                 /\ Permission.name p = "cong-no" /\ Permission.action p = "read")
      \/ "admin" ∈ userRoles (Some u).
Proof.
  intros u. apply (department_action_iff_grant_or_admin u "cong-no" "read");
    discriminate.
Defined.

(** C1 as the claim words it fails when a field is set to the empty
    string: the clause [check.departmentSlug && check.action] tests
    truthiness, so [{departmentSlug: "", action: "read"}] reaches the
    final [return true] for a user who has no permission at all and is
    not an admin. *)
Lemma empty_department_slug_is_allowed :
  let u := mkUser (Some [Role.mk "user-cong-no"]) (Some []) None in
  checkDynamicPermission (Some u) (department_action "" "read") = true
  /\ ~ ((exists p, p ∈ userPermissions (Some u)
                   /\ Permission.name p = "" /\ Permission.action p = "read")
        \/ "admin" ∈ userRoles (Some u)).
Proof.
  intros u. split; [reflexivity|].
  intros [(p & Hp & _) | Hadm].
  - simpl in Hp. by apply elem_of_nil in Hp.
  - apply isAdmin_elem_of in Hadm. discriminate.
Qed.

End DynamicPermissionFacts.

(** ** The older evaluator against the dynamic one *)

Module LegacyPermissionFacts.

Import DynamicPermissionFacts.

Lemma some_admin_includes (rs : list Role.t) :
  existsb (fun role => String.eqb (Role.name role) "admin") rs
  = Js.includes "admin" (map Role.name rs).
Proof.
  unfold Js.includes. induction rs as [|r rs IH]; [reflexivity|].
  simpl. by rewrite IH, String.eqb_sym.
Qed.

Lemma getUserPermissions_snapshot (u : UserWithPermissions) :
  LegacyPermission.getUserPermissions u = DynamicPermission.userPermissions (Some u).
Proof. reflexivity. Qed.

(** [checkPermission] computes [userRoles], [requiredRoles] and
    [hasRole] and returns [hasPermission]: its answer is the admin test
    followed by the search of the snapshot. *)
Lemma checkPermission_eq (user : option UserWithPermissions) (d a : string) :
  LegacyPermission.checkPermission user (LegacyPermission.mkParams d a)
  = match user with
    | None => false
    | Some u =>
        if DynamicPermission.isAdmin (Some u) then true
        else existsb
               (fun permission =>
                  Js.strict_eq (Permission.name permission) (Some d)
                  && Js.strict_eq (Permission.action permission) (Some a))
               (DynamicPermission.userPermissions (Some u))
    end.
Proof.
  destruct user as [u|]; [|reflexivity].
  unfold LegacyPermission.checkPermission, DynamicPermission.isAdmin,
    DynamicPermission.userRoles.
  destruct (roles u) as [rs|]; [rewrite some_admin_includes|]; reflexivity.
Qed.

Lemma checkPermission_iff (user : option UserWithPermissions) (d a : string) :
  LegacyPermission.checkPermission user (LegacyPermission.mkParams d a) = true
  <-> "admin" ∈ DynamicPermission.userRoles user \/ DynamicPermission.grants user d a.
Proof.
  rewrite checkPermission_eq. destruct user as [u|].
  - destruct (DynamicPermission.isAdmin (Some u)) eqn:Hadm.
    + apply isAdmin_elem_of in Hadm. tauto.
    + rewrite some_permission_grants.
      assert ("admin" ∉ DynamicPermission.userRoles (Some u)).
      { intros H%isAdmin_elem_of. congruence. }
      tauto.
  - split; [discriminate|].
    intros [H | (p & H & _)]; simpl in H; by apply elem_of_nil in H.
Qed.

(** C9, for slugs and actions that are not empty.  For every user,
    absent or not, and every pair of non-empty strings
    [(departmentSlug, action)], the older [checkPermission] and
    [checkDynamicPermission] return the same boolean: false for an absent
    user, true for an admin, and otherwise true exactly when the
    deduplicated permission set holds an entry for the pair.  The role
    list that [checkPermission] computes does not enter its result. *)
Theorem legacy_agrees_with_dynamic
    (user : option UserWithPermissions) (d a : string) :
  d <> "" -> a <> "" ->
  LegacyPermission.checkPermission user (LegacyPermission.mkParams d a)
  = DynamicPermission.checkDynamicPermission user
      (DynamicPermission.department_action d a)
  /\ (user = None ->
      LegacyPermission.checkPermission user (LegacyPermission.mkParams d a) = false)
  /\ ("admin" ∈ DynamicPermission.userRoles user ->
      LegacyPermission.checkPermission user (LegacyPermission.mkParams d a) = true)
  /\ (user <> None -> "admin" ∉ DynamicPermission.userRoles user ->
      (LegacyPermission.checkPermission user (LegacyPermission.mkParams d a) = true
       <-> DynamicPermission.grants user d a)).
Proof.
  intros Hd Ha. split; [|split; [|split]].
  - rewrite checkPermission_eq. destruct user as [u|]; [|reflexivity].
    destruct (DynamicPermission.isAdmin (Some u)) eqn:Hadm.
    + unfold DynamicPermission.checkDynamicPermission. by rewrite Hadm.
    + by rewrite check_department_action_nonadmin.
  - intros ->. reflexivity.
  - intros Hadm. apply checkPermission_iff. by left.
  - intros _ Hadm. rewrite checkPermission_iff. tauto.
Qed.

Lemma legacy_agrees_with_dynamic_witness :
  let user := Some (mkUser (Some [Role.mk "manager-kho"])
                           (Some [Permission.mk 1 "kho" "read";
                                  Permission.mk 2 "kho" "read"])
                           None) in
  LegacyPermission.checkPermission user (LegacyPermission.mkParams "kho" "read")
  = DynamicPermission.checkDynamicPermission user
      (DynamicPermission.department_action "kho" "read").
Proof.
  intros user.
  destruct (legacy_agrees_with_dynamic user "kho" "read") as [Heq _];
    [discriminate | discriminate | exact Heq].
Defined.

(** C9 as the claim words it, for every pair, fails on the empty slug:
    the older evaluator searches the snapshot for [("", "read")] and
    answers false, the dynamic one finds [departmentSlug] falsy, skips
    both permission clauses and answers true. *)
Lemma legacy_differs_on_empty_slug :
  let user := Some (mkUser (Some [Role.mk "user-cong-no"]) (Some []) None) in
  LegacyPermission.checkPermission user (LegacyPermission.mkParams "" "read") = false
  /\ DynamicPermission.checkDynamicPermission user
       (DynamicPermission.department_action "" "read") = true.
Proof. split; reflexivity. Qed.

(** The same happens on the empty action, where the dynamic evaluator
    falls into its department-only clause. *)
Lemma legacy_differs_on_empty_action :
  let user := Some (mkUser (Some [Role.mk "user-cong-no"]) (Some []) None) in
  LegacyPermission.checkPermission user (LegacyPermission.mkParams "cong-no" "") = false
  /\ DynamicPermission.checkDynamicPermission user
       (DynamicPermission.department_action "cong-no" "") = true.
Proof. split; reflexivity. Qed.

End LegacyPermissionFacts.

(** ** The permission snapshot *)

Module SnapshotFacts.

Import DynamicPermission.
Local Open Scope list_scope.

Lemma has_elem_of (m : uniqueMap) (k : string) :
  has m k = true <-> k ∈ map fst m.
Proof.
  unfold has. rewrite existsb_elem_of, list_elem_of_fmap. split.
  - intros (e & He & Hk). apply String.eqb_eq in Hk. eauto.
  - intros (e & -> & He). exists e. split; [done | apply String.eqb_refl].
Qed.

(** Setting a key that the map does not have appends the entry. *)
Lemma set_fresh (m : uniqueMap) (k : string) (p : Permission.t) :
  has m k = false -> set m k p = m ++ [(k, p)].
Proof.
  induction m as [|e m IH]; simpl; [done|].
  intros [He Hm]%orb_false_iff. rewrite He. by rewrite IH.
Qed.

Lemma add_permission_seen (m : uniqueMap) (p : Permission.t) :
  has m (key p) = true -> add_permission m p = m.
Proof. unfold add_permission. by intros ->. Qed.

Lemma add_permission_fresh (m : uniqueMap) (p : Permission.t) :
  has m (key p) = false -> add_permission m p = m ++ [(key p, p)].
Proof. unfold add_permission. intros H. rewrite H. simpl. by apply set_fresh. Qed.

Lemma loop_invariant_start : loop_invariant [] [].
Proof.
  split; simpl; try done.
  - constructor.
  - intros k. split; [by intros ?%elem_of_nil|].
    by intros (p & ?%elem_of_nil & _).
  - by intros q ?%elem_of_nil.
Qed.

Lemma loop_invariant_step ps m p :
  loop_invariant ps m -> loop_invariant (ps ++ [p]) (add_permission m p).
Proof.
  intros [Hkeys Hnodup Hdom Hfirst Horder].
  destruct (has m (key p)) eqn:Hhas.
  - rewrite add_permission_seen by done.
    apply has_elem_of in Hhas.
    split; try done.
    + intros k. rewrite Hdom. split.
      * intros (q & Hq & Hk). exists q. split; [|done].
        apply elem_of_app. by left.
      * intros (q & [Hq | Hq%list_elem_of_singleton]%elem_of_app & Hk).
        -- eauto.
        -- subst q k. by apply Hdom.
    + intros q Hq. destruct (Hfirst q Hq) as (l1 & l2 & -> & Hl1).
      exists l1, (l2 ++ [p]). split; [|done].
      by rewrite <- app_assoc.
    + by apply sublist_inserts_r.
  - rewrite add_permission_fresh by done.
    assert (Hnew : key p ∉ map fst m).
    { intros H%has_elem_of. congruence. }
    unfold values in *.
    split; unfold values.
    + rewrite !map_app. simpl. by rewrite Hkeys.
    + rewrite map_app. simpl. apply NoDup_app. split; [done|]. split.
      * intros k Hk ->%list_elem_of_singleton. done.
      * apply NoDup_singleton.
    + intros k. rewrite map_app, elem_of_app. simpl.
      rewrite list_elem_of_singleton, Hdom. split.
      * intros [(q & Hq & Hk) | ->].
        -- exists q. split; [|done]. apply elem_of_app. by left.
        -- exists p. split; [|done]. apply elem_of_app. right.
           by apply list_elem_of_singleton.
      * intros (q & [Hq | Hq%list_elem_of_singleton]%elem_of_app & Hk).
        -- left. eauto.
        -- right. by subst.
    + intros q. rewrite map_app, elem_of_app. simpl.
      rewrite list_elem_of_singleton. intros [Hq | ->].
      * destruct (Hfirst q Hq) as (l1 & l2 & -> & Hl1).
        exists l1, (l2 ++ [p]). split; [|done].
        by rewrite <- app_assoc.
      * exists ps, []. split; [done|].
        intros p' Hp' Heq. apply Hnew. apply Hdom. eauto.
    + rewrite map_app. simpl. by apply sublist_app.
Qed.

Lemma loop_invariant_end (ps : list Permission.t) :
  loop_invariant ps (fold_left add_permission ps []).
Proof.
  induction ps as [|p ps IH] using rev_ind.
  - apply loop_invariant_start.
  - rewrite fold_left_app. simpl. by apply loop_invariant_step.
Qed.

(** C6. Whatever the permission list of the user, and so for a list in
    which several entries share a [(name, action)] pair while differing
    elsewhere, the snapshot has exactly one entry for each [name:action]
    key of the list, that entry is the first one of the list with that
    key, and the entries come in the order of the list. *)
Theorem snapshot_keeps_first_per_key
    (u : UserWithPermissions) (ps : list Permission.t) :
  permissions u = Some ps ->
  NoDup (map key (userPermissions (Some u)))
  /\ (forall p, p ∈ ps ->
      exists q, q ∈ userPermissions (Some u) /\ key q = key p)
  /\ (forall q, q ∈ userPermissions (Some u) ->
      exists l1 l2, ps = l1 ++ q :: l2 /\ forall p, p ∈ l1 -> key p <> key q)
  /\ sublist (userPermissions (Some u)) ps.
Proof.
  intros Hps. unfold userPermissions. rewrite Hps.
  destruct (loop_invariant_end ps) as [Hkeys Hnodup Hdom Hfirst Horder].
  split; [|split; [|split]]; try done.
  - by rewrite <- Hkeys.
  - intros p Hp.
    assert (Hk : key p ∈ map fst (fold_left add_permission ps [])).
    { apply Hdom. eauto. }
    rewrite Hkeys in Hk. apply list_elem_of_fmap in Hk as (q & Hk & Hq). eauto.
Qed.

Lemma snapshot_keeps_first_per_key_witness :
  let ps := [Permission.mk 1 "cong-no" "read"; Permission.mk 2 "kho" "read";
             Permission.mk 3 "cong-no" "read"] in
  let u := mkUser None (Some ps) None in
  userPermissions (Some u)
  = [Permission.mk 1 "cong-no" "read"; Permission.mk 2 "kho" "read"]
  /\ NoDup (map key (userPermissions (Some u)))
  /\ sublist (userPermissions (Some u)) ps.
Proof.
  intros ps u.
  destruct (snapshot_keeps_first_per_key u ps eq_refl) as (H1 & _ & _ & H4).
  split; [reflexivity | split; [exact H1 | exact H4]].
Defined.

(** The key is the text [name:action], so two different pairs whose
    texts coincide count as one key: only the first is kept. *)
Example snapshot_key_collision :
  userPermissions
    (Some (mkUser None (Some [Permission.mk 1 "a:b" "c"; Permission.mk 2 "a" "b:c"]) None))
  = [Permission.mk 1 "a:b" "c"].
Proof. reflexivity. Qed.

End SnapshotFacts.

(** ** The departments a user can reach *)

Module DepartmentFacts.

Import DynamicPermission.
Local Open Scope list_scope.

Lemma set_add_elem_of (x y : string) (s : list string) :
  x ∈ Js.set_add y s <-> x ∈ s \/ x = y.
Proof.
  unfold Js.set_add. destruct (Js.includes y s) eqn:Hy.
  - apply includes_elem_of in Hy. split; [by left|].
    intros [H | ->]; done.
  - by rewrite elem_of_app, list_elem_of_singleton.
Qed.

Lemma set_add_NoDup (y : string) (s : list string) :
  NoDup s -> NoDup (Js.set_add y s).
Proof.
  intros Hs. unfold Js.set_add. destruct (Js.includes y s) eqn:Hy; [done|].
  apply NoDup_app. split; [done|]. split; [|apply NoDup_singleton].
  intros x Hx ->%list_elem_of_singleton.
  apply includes_elem_of in Hx. congruence.
Qed.

(** A loop that adds to a set what [f] extracts from each element. *)
Lemma fold_set_add {A} (f : A -> option string)
    (step : list string -> A -> list string) :
  (forall acc x, step acc x = match f x with
                              | Some g => Js.set_add g acc
                              | None => acc
                              end) ->
  forall (l : list A) (acc : list string),
    NoDup acc ->
    NoDup (fold_left step l acc)
    /\ forall s, s ∈ fold_left step l acc
                 <-> s ∈ acc \/ exists x, x ∈ l /\ f x = Some s.
Proof.
  intros Hstep l. induction l as [|x l IH]; intros acc Hacc; simpl.
  - split; [done|]. intros s. split; [by left|].
    by intros [H | (x & ?%elem_of_nil & _)].
  - assert (Hacc' : NoDup (step acc x)).
    { rewrite Hstep. destruct (f x); [by apply set_add_NoDup | done]. }
    destruct (IH (step acc x) Hacc') as [Hnd Hin]. split; [done|].
    intros s. rewrite Hin. setoid_rewrite elem_of_cons.
    rewrite Hstep. destruct (f x) as [g|] eqn:Hfx.
    + rewrite set_add_elem_of. split.
      * intros [[H | ->] | (y & Hy & Hs)]; eauto.
      * intros [H | (y & [-> | Hy] & Hs)]; eauto.
        left. right. congruence.
    + split.
      * intros [H | (y & Hy & Hs)]; eauto.
      * intros [H | (y & [-> | Hy] & Hs)]; eauto. congruence.
Qed.

Lemma dot_plus_to_end_Some (rest g : string) :
  Js.dot_plus_to_end rest = Some g
  <-> g = rest /\ rest <> "" /\ Js.has_line_terminator rest = false.
Proof.
  unfold Js.dot_plus_to_end.
  destruct (String.eqb_spec rest ""), (Js.has_line_terminator rest); simpl;
    split; try (intros [= <-]); try (intros (-> & ? & ?)); try done.
Qed.

(** The matcher of the model against the meaning of the pattern. *)
Lemma role_match_group2_captures (role g : string) :
  role_match_group2 role = Some g <-> captures role g.
Proof.
  unfold role_match_group2, captures. split.
  - destruct (Js.strip_prefix ("manager" ++ "-") role) as [rest|] eqn:Hm.
    + apply strip_prefix_Some in Hm.
      destruct (Js.dot_plus_to_end rest) as [g'|] eqn:Hd.
      * intros [= <-]. apply dot_plus_to_end_Some in Hd as (-> & ? & ?).
        exists "manager". by eauto.
      * subst role. simpl. discriminate.
    + destruct (Js.strip_prefix ("user" ++ "-") role) as [rest|] eqn:Hu;
        [|discriminate].
      apply strip_prefix_Some in Hu. intros Hd.
      apply dot_plus_to_end_Some in Hd as (-> & ? & ?).
      exists "user". by eauto.
  - intros (kind & [-> | ->] & -> & Hne & Hlt).
    + assert (Hd : Js.dot_plus_to_end g = Some g)
        by by apply dot_plus_to_end_Some.
      simpl. rewrite Hd. reflexivity.
    + assert (Hd : Js.dot_plus_to_end g = Some g)
        by by apply dot_plus_to_end_Some.
      simpl. exact Hd.
Qed.

(** C7. For every user, absent or not, [getAccessibleDepartments()]
    holds no slug twice, and a slug is in it exactly when it is the slug
    of one of the user's departments or the second group of the match of
    [^(manager|user)-(.+)$] against one of the user's role names. *)
Theorem accessible_departments_are_the_union (user : option UserWithPermissions) :
  NoDup (getAccessibleDepartments user)
  /\ forall s : string,
       s ∈ getAccessibleDepartments user
       <-> (exists dept, dept ∈ userDepartments user /\ Department.slug dept = s)
           \/ (exists role, role ∈ userRoles user /\ captures role s).
Proof.
  unfold getAccessibleDepartments.
  destruct (fold_set_add (fun dept => Some (Department.slug dept))
              (fun acc dept => Js.set_add (Department.slug dept) acc)
              (fun _ _ => eq_refl) (userDepartments user) [])
    as [Hnd1 Hin1]; [constructor|].
  destruct (fold_set_add role_match_group2
              (fun acc role => match role_match_group2 role with
                               | Some g => Js.set_add g acc
                               | None => acc
                               end)
              (fun _ _ => eq_refl) (userRoles user) _ Hnd1)
    as [Hnd2 Hin2].
  split; [exact Hnd2|].
  intros s. rewrite Hin2, Hin1.
  setoid_rewrite role_match_group2_captures. split.
  - intros [[?%elem_of_nil | (d & Hd & [= Hs])] | H]; [done| |]; eauto.
  - intros [(d & Hd & Hs) | H]; [|by right].
    left. right. exists d. by rewrite Hs.
Qed.

(** The scenario of the specification: one role [user-cong-no], no
    explicit department. *)
Example accessible_departments_scenario :
  getAccessibleDepartments
    (Some (mkUser (Some [Role.mk "user-cong-no"]) None (Some [])))
  = ["cong-no"].
Proof. reflexivity. Qed.

End DepartmentFacts.

(** ** The route guard *)

Module MiddlewareFacts.

Import Json Middleware.
Local Open Scope list_scope.

Section Decoding.

Variable parse_segment : string -> option value.
Variable now : Z.

Lemma bind_snd {A B} (m : stmt A) (k : A -> stmt B) (s : Session) :
  snd (bind m k s)
  = match m s with
    | (Normal a, s') => snd (k a s')
    | (Throw, s') => s'
    end.
Proof. unfold bind. by destruct (m s) as [[a|] s']. Qed.

(** Reading the roles and the link status leaves [isValid] alone. *)
Lemma read_roles_isValid payload s :
  isValid (snd (read_roles payload s)) = isValid s.
Proof.
  unfold read_roles, bind, eval, assign, ret.
  destruct (get payload "roles") as [[[]|]|]; simpl; try done.
  by destruct (map_roles _).
Qed.

Lemma read_status_isValid payload s :
  isValid (snd (read_status payload s)) = isValid s.
Proof.
  unfold read_status, bind, eval, assign, ret.
  by destruct (get payload "zaloLinkStatus") as [[[]|]|].
Qed.

Lemma read_exp_isValid payload :
  isValid (snd (read_exp now payload initial))
  = match get payload "exp" with
    | Normal (Some (Num e)) => (0 <? e) && (now <? e * 1000)
    | _ => false
    end.
Proof.
  unfold read_exp, bind, eval, assign, ret.
  destruct (get payload "exp") as [[[| |e| | |]|]|]; simpl; try done.
  destruct (Z.eqb_spec e 0) as [->|Hne]; simpl; [done|].
  rewrite Z.gtb_ltb. by destruct (0 <? e).
Qed.

Lemma read_payload_isValid payload :
  isValid (try_catch (read_payload now payload) initial)
  = match get payload "exp" with
    | Normal (Some (Num e)) => (0 <? e) && (now <? e * 1000)
    | _ => false
    end.
Proof.
  unfold try_catch, read_payload. rewrite <- read_exp_isValid.
  rewrite bind_snd. destruct (read_exp now payload initial) as [[[]|] s1];
    simpl; [|done].
  rewrite bind_snd. destruct (read_roles payload s1) as [[[]|] s2] eqn:E2;
    simpl.
  - rewrite read_status_isValid.
    change s2 with (snd (Normal tt, s2)). rewrite <- E2.
    apply read_roles_isValid.
  - change s2 with (snd (@Throw unit, s2)). rewrite <- E2.
    apply read_roles_isValid.
Qed.

Lemma decode_token (t : string) (payload : value) :
  t <> "" -> parse_segment t = Some payload ->
  decode parse_segment now (Some t)
  = try_catch (read_payload now payload) initial.
Proof.
  intros Ht Hp. unfold decode.
  apply truthy_str_Some in Ht. rewrite Ht. simpl. by rewrite Hp.
Qed.

(** The session is valid exactly for a truthy token whose payload has a
    numeric, positive [exp] that lies after the clock. *)
Lemma decode_isValid_iff (token : option string) :
  isValid (decode parse_segment now token) = true
  <-> exists t payload e,
        token = Some t /\ t <> "" /\ parse_segment t = Some payload
        /\ get payload "exp" = Normal (Some (Num e))
        /\ 0 < e /\ now < e * 1000.
Proof.
  split.
  - unfold decode. destruct (Js.truthy_str token) eqn:Ht; [|discriminate].
    destruct token as [t|]; [|discriminate].
    apply truthy_str_Some in Ht. simpl.
    destruct (parse_segment t) as [payload|] eqn:Hp; [|discriminate].
    rewrite read_payload_isValid.
    destruct (get payload "exp") as [[[| |e| | |]|]|] eqn:He; try discriminate.
    intros [H1 H2]%andb_true_iff. exists t, payload, e. repeat split; try done; lia.
  - intros (t & payload & e & -> & Ht & Hp & He & H1 & H2).
    rewrite (decode_token t payload) by done.
    rewrite read_payload_isValid, He. apply andb_true_iff. split; lia.
Qed.

(** A payload with a numeric [exp] at or before the clock: not
    valid. *)
Lemma decode_expired t payload e :
  t <> "" -> parse_segment t = Some payload ->
  get payload "exp" = Normal (Some (Num e)) ->
  e * 1000 <= now ->
  isValid (decode parse_segment now (Some t)) = false.
Proof.
  intros Ht Hp He Hle. apply not_true_is_false.
  intros (t' & payload' & e' & [= <-] & _ & Hp' & He' & _ & Hlt)%decode_isValid_iff.
  rewrite Hp in Hp'. injection Hp' as <-. rewrite He in He'.
  injection He' as <-. lia.
Qed.

(** A payload without [exp]: not valid either. *)
Lemma decode_without_exp t payload :
  t <> "" -> parse_segment t = Some payload ->
  get payload "exp" = Normal None ->
  isValid (decode parse_segment now (Some t)) = false.
Proof.
  intros Ht Hp He. apply not_true_is_false.
  intros (t' & payload' & e' & [= <-] & _ & Hp' & He' & _)%decode_isValid_iff.
  rewrite Hp in Hp'. injection Hp' as <-. rewrite He in He'. discriminate.
Qed.

(** When the roles can be read, the link status of a payload that
    has a numeric one is what the guard ends up with. *)
Lemma decode_status t payload n :
  t <> "" -> parse_segment t = Some payload ->
  roles_readable payload = true ->
  get payload "zaloLinkStatus" = Normal (Some (Num n)) ->
  zaloLinkStatus (decode parse_segment now (Some t)) = n.
Proof.
  intros Ht Hp Hr Hz. rewrite (decode_token t payload) by done.
  unfold try_catch, read_payload. rewrite bind_snd.
  assert (Hexp : exists s1, read_exp now payload initial = (Normal tt, s1)).
  { unfold read_exp, bind, eval, assign, ret.
    destruct payload; try discriminate;
      (destruct (get _ "exp") as [[[| |e| | |]|]|] eqn:He;
       try discriminate; simpl; eauto).
    all: destruct (negb (e =? 0) && (e >? 0)); eauto. }
  destruct Hexp as [s1 ->]. rewrite bind_snd.
  assert (Hroles : exists s2, read_roles payload s1 = (Normal tt, s2)).
  { unfold roles_readable in Hr. unfold read_roles, bind, eval, assign, ret.
    destruct (get payload "roles") as [[[| | | |rs|]|]|]; simpl;
      try discriminate; eauto.
    destruct (map_roles rs); [eauto | discriminate]. }
  destruct Hroles as [s2 ->].
  unfold read_status, bind, eval, assign, ret. by rewrite Hz.
Qed.

End Decoding.

Section Guarding.

Variable navItems : list NavGroup.
Variable parse_segment : string -> option value.
Variable now : Z.
Variable fetch_refresh : string -> FetchResult.

(** An invalid session on a path that is not public goes through the
    recovery; on the public path it is let through as it is. *)
Lemma middleware_invalid request :
  isValid (decode parse_segment now (access_token request)) = false ->
  pathname request <> "/login" ->
  middleware navItems parse_segment now fetch_refresh request = recover fetch_refresh request.
Proof.
  intros Hv Hp. unfold middleware. rewrite Hv. simpl.
  apply String.eqb_neq in Hp. by rewrite Hp.
Qed.

Lemma middleware_invalid_public request :
  isValid (decode parse_segment now (access_token request)) = false ->
  pathname request = "/login" ->
  middleware navItems parse_segment now fetch_refresh request = mkOutcome Next [].
Proof.
  intros Hv Hp. unfold middleware. rewrite Hv, Hp. reflexivity.
Qed.

Lemma recover_without_refresh_token request :
  Js.truthy_str (refresh_token request) = false ->
  recover fetch_refresh request = mkOutcome (login_redirect request) [].
Proof. unfold recover. by intros ->. Qed.

(** With a refresh token there is exactly one call; the request
    continues with new cookies when the call brought an access token,
    and goes to the login page otherwise. *)
Lemma recover_with_refresh_token request r :
  refresh_token request = Some r -> r <> "" ->
  refresh_calls (recover fetch_refresh request) = [r]
  /\ ((exists access refresh,
         refreshed (fetch_refresh r) access
         /\ response (recover fetch_refresh request)
            = NextWithCookies access refresh)
      \/ ((forall access, ~ refreshed (fetch_refresh r) access)
          /\ response (recover fetch_refresh request) = login_redirect request)).
Proof.
  intros Hr Hne. unfold recover. rewrite Hr.
  apply truthy_str_Some in Hne. rewrite Hne. simpl.
  destruct (fetch_refresh r) as [|[] [data|]] eqn:Hf; simpl;
    try (split; [done|]; right; split; [|done];
         intros access (data' & [=] & _); fail).
  destruct (get data "access_token") as [[access|]|] eqn:Ha; simpl;
    try (split; [done|]; right; split; [|done];
         intros access' (data' & [= <-] & Ha' & _); congruence).
  destruct (truthy access) eqn:Ht; simpl.
  - assert (Hok : refreshed (HttpResponse true (Some data)) access)
      by (exists data; done).
    destruct (get data "refresh_token") as [[refresh|]|]; simpl;
      (split; [done|]); left; eauto.
  - split; [done|]. right. split; [|done].
    intros access' (data' & [= <-] & Ha' & Ht'). congruence.
Qed.

(** C3, away from the public path.  For every request to a path
    other than [/login] whose [access_token] decodes to a payload with
    a numeric [exp] at or before the clock ([exp * 1000 <= Date.now()]),
    the guard holds the session invalid; without a refresh token it
    redirects to the login page; with one it makes exactly one refresh
    call, continues the request with the new cookies when the call
    succeeds, and redirects to the login page when it does not. *)
Theorem expired_session_is_recovered_or_sent_to_login
    (request : NextRequest) (t : string) (payload : value) (e : Z) :
  access_token request = Some t -> t <> "" ->
  parse_segment t = Some payload ->
  get payload "exp" = Normal (Some (Num e)) ->
  e * 1000 <= now ->
  pathname request <> "/login" ->
  isValid (decode parse_segment now (access_token request)) = false
  /\ (Js.truthy_str (refresh_token request) = false ->
      middleware navItems parse_segment now fetch_refresh request = mkOutcome (login_redirect request) [])
  /\ (forall r, refresh_token request = Some r -> r <> "" ->
      refresh_calls (middleware navItems parse_segment now fetch_refresh request) = [r]
      /\ ((exists access refresh,
             refreshed (fetch_refresh r) access
             /\ response (middleware navItems parse_segment now fetch_refresh request) = NextWithCookies access refresh)
          \/ ((forall access, ~ refreshed (fetch_refresh r) access)
              /\ response (middleware navItems parse_segment now fetch_refresh request) = login_redirect request))).
Proof.
  intros Htok Ht Hp He Hle Hpath.
  assert (Hv : isValid (decode parse_segment now (access_token request)) = false).
  { rewrite Htok. by eapply decode_expired. }
  rewrite middleware_invalid by done.
  split; [done|]. split.
  - apply recover_without_refresh_token.
  - apply recover_with_refresh_token.
Qed.

(** The link-status branch (lines 63 to 71) for a session that the
    decoding block read to its end. *)
Lemma link_status_override request t payload :
  access_token request = Some t -> t <> "" ->
  parse_segment t = Some payload ->
  isValid (decode parse_segment now (access_token request)) = true ->
  roles_readable payload = true ->
  get payload "zaloLinkStatus" = Normal (Some (Num 2)) ->
  middleware navItems parse_segment now fetch_refresh request
  = if String.eqb (pathname request) zaloLinkPath
    then mkOutcome Next []
    else mkOutcome (Redirect zaloLinkPath) [].
Proof.
  intros Htok Ht Hp Hv Hr Hz. unfold middleware. rewrite Hv.
  rewrite Htok, (decode_status _ _ t payload 2) by done. simpl.
  by destruct (String.eqb (pathname request) zaloLinkPath).
Qed.

(** *** The navigation table *)

Lemma item_open_iff (userRoles : list value) (item : NavItem) :
  item_open userRoles item = true
  <-> item_roles item = None
      \/ exists rs role, item_roles item = Some rs
                         /\ role ∈ rs /\ Str role ∈ userRoles.
Proof.
  unfold item_open, hasRole. destruct (item_roles item) as [rs|].
  - rewrite existsb_elem_of. split.
    + intros (role & Hrole & Hin). right. exists rs, role.
      split; [done|]. split; [done|].
      unfold includes_str in Hin. apply existsb_elem_of in Hin as (v & Hv & Heq).
      destruct v; try discriminate. apply String.eqb_eq in Heq. by subst.
    + intros [? | (rs' & role & [= <-] & Hrole & Hin)]; [done|].
      exists role. split; [done|]. unfold includes_str.
      apply existsb_elem_of. exists (Str role).
      split; [done | apply String.eqb_refl].
  - split; [by left | done].
Qed.

Lemma first_in_groups_flat (userRoles : list value) (gs : list NavGroup) :
  first_in_groups userRoles gs = first_in_items userRoles (all_items gs).
Proof.
  induction gs as [|g gs IH]; [done|]. simpl. rewrite IH.
  generalize (all_items gs). intros rest.
  induction (items g) as [|item l IHl]; [done|]. simpl.
  by destruct (item_open userRoles item).
Qed.

Lemma first_in_items_found (userRoles : list value) l1 item l2 :
  (forall i, i ∈ l1 -> item_open userRoles i = false) ->
  item_open userRoles item = true ->
  first_in_items userRoles (l1 ++ item :: l2) = Some (url item).
Proof.
  intros Hl1 Hitem. induction l1 as [|i l1 IH]; simpl.
  - by rewrite Hitem.
  - rewrite (Hl1 i) by apply list_elem_of_here.
    apply IH. intros j Hj. apply Hl1. by apply list_elem_of_further.
Qed.

Lemma first_in_items_none (userRoles : list value) l :
  (forall i, i ∈ l -> item_open userRoles i = false) ->
  first_in_items userRoles l = None.
Proof.
  intros Hl. induction l as [|i l IH]; [done|]. simpl.
  rewrite (Hl i) by apply list_elem_of_here.
  apply IH. intros j Hj. apply Hl. by apply list_elem_of_further.
Qed.

Lemma allUrls_elem_of (u : string) :
  Js.includes u (allUrls navItems) = true
  <-> exists item, item ∈ all_items navItems /\ url item = u.
Proof.
  rewrite includes_elem_of. unfold allUrls, all_items.
  induction navItems as [|g gs IH]; simpl.
  - split; [by intros ?%elem_of_nil | by intros (i & ?%elem_of_nil & _)].
  - rewrite elem_of_app, IH, list_elem_of_fmap.
    setoid_rewrite elem_of_app. split.
    + intros [(i & -> & Hi) | (i & Hi & Hu)]; eauto.
    + intros (i & [Hi | Hi] & Hu); [left | right]; eauto.
Qed.

Lemma isAccessible_false (userRoles : list value) (u : string) :
  (forall item, item ∈ all_items navItems -> url item = u ->
                item_open userRoles item = false) ->
  isAccessible navItems userRoles u = false.
Proof.
  intros H. apply not_true_is_false. unfold isAccessible.
  intros (g & Hg & (item & Hitem & Hopen)%existsb_elem_of)%existsb_elem_of.
  apply andb_true_iff in Hopen as [Hu%String.eqb_eq Hopen].
  rewrite H in Hopen; [done| |done].
  unfold all_items. apply list_elem_of_In, in_flat_map.
  exists g. split; by apply list_elem_of_In.
Qed.

(** A valid session without link error, on a path of the table that
    its roles do not open and that is not the linking page: the answer
    is a redirection to the landing url if there is one. *)
Lemma middleware_denied request :
  isValid (decode parse_segment now (access_token request)) = true ->
  zaloLinkStatus (decode parse_segment now (access_token request)) <> 2 ->
  pathname request <> zaloLinkPath ->
  Js.includes (pathname request) (allUrls navItems) = true ->
  isAccessible navItems
    (userRoles (decode parse_segment now (access_token request)))
    (pathname request) = false ->
  middleware navItems parse_segment now fetch_refresh request
  = match landing navItems
            (userRoles (decode parse_segment now (access_token request))) with
    | Some firstUrl => mkOutcome (Redirect firstUrl) []
    | None => mkOutcome Next []
    end.
Proof.
  intros Hv Hz Hp Hin Hacc. unfold middleware.
  rewrite Hv, Hin, Hacc. apply Z.eqb_neq in Hz. rewrite Hz.
  apply String.eqb_neq in Hp. rewrite Hp. simpl.
  destruct (landing navItems _) as [u|].
  all: by destruct (String.eqb (pathname request) "/"),
                (String.eqb (pathname request) "/login"),
                (String.eqb (pathname request) "/dashboard").
Qed.

(** C8, away from the link-status branches.  For every valid session
    whose link status is not 2, on a path other than the linking page
    that is in the navigation table and that the user's roles do not
    open: when some item is open to the roles (its [roles] is absent or
    shares a role with the user's), the guard redirects to the url of
    the first such item, groups and items taken in order, provided the
    url is not empty; when no item is open, or the url of the first
    one is empty, the guard lets the request continue. *)
Theorem denied_path_goes_to_first_accessible (request : NextRequest) :
  let s := decode parse_segment now (access_token request) in
  isValid s = true ->
  zaloLinkStatus s <> 2 ->
  pathname request <> zaloLinkPath ->
  (exists item, item ∈ all_items navItems /\ url item = pathname request) ->
  (forall item, item ∈ all_items navItems -> url item = pathname request ->
                item_open (userRoles s) item = false) ->
  (forall l1 item l2,
      all_items navItems = l1 ++ item :: l2 ->
      (forall i, i ∈ l1 -> item_open (userRoles s) i = false) ->
      item_open (userRoles s) item = true ->
      middleware navItems parse_segment now fetch_refresh request
      = if String.eqb (url item) ""
        then mkOutcome Next []
        else mkOutcome (Redirect (url item)) [])
  /\ ((forall i, i ∈ all_items navItems -> item_open (userRoles s) i = false) ->
      middleware navItems parse_segment now fetch_refresh request
      = mkOutcome Next []).
Proof.
  intros s Hv Hz Hp Hin Hdenied.
  apply allUrls_elem_of in Hin. apply isAccessible_false in Hdenied.
  rewrite middleware_denied by done. fold s.
  unfold landing, getFirstAccessibleUrl. rewrite first_in_groups_flat.
  split.
  - intros l1 item l2 -> Hl1 Hitem.
    rewrite first_in_items_found by done.
    by destruct (String.eqb (url item) "").
  - intros Hnone. by rewrite first_in_items_none.
Qed.

End Guarding.

(** *** The guard on concrete requests *)

Lemma expired_session_is_recovered_or_sent_to_login_witness :
  let parse := fun _ : string => Some (Obj [("exp", Num 1000)]) in
  let fetch := fun _ : string =>
    HttpResponse true (Some (Obj [("access_token", Str "fresh")])) in
  let request :=
    mkRequest "/debt/manage" "https://host/debt/manage" (Some "h.p.s") (Some "r") in
  isValid (decode parse 2000000 (access_token request)) = false
  /\ middleware [] parse 2000000 fetch request
     = mkOutcome (NextWithCookies (Str "fresh") None) ["r"].
Proof.
  intros parse fetch request.
  destruct (expired_session_is_recovered_or_sent_to_login
              [] parse 2000000 fetch request "h.p.s" (Obj [("exp", Num 1000)]) 1000)
    as [Hv _]; [reflexivity | discriminate | reflexivity | reflexivity | lia
                | discriminate |].
  split; [exact Hv | reflexivity].
Defined.

(** C3 as the claim words it, for every request, fails on the public
    path: a request to [/login] with an expired token is let through by
    the test [publicPaths.includes(pathname)], which comes before the
    recovery; no refresh call is made and nothing is redirected, even
    with a refresh token at hand. *)
Lemma expired_session_on_login_is_let_through :
  let parse := fun _ : string => Some (Obj [("exp", Num 1000)]) in
  let fetch := fun _ : string =>
    HttpResponse true (Some (Obj [("access_token", Str "fresh")])) in
  let request := mkRequest "/login" "https://host/login" (Some "h.p.s") (Some "r") in
  1000 * 1000 <= 2000000
  /\ isValid (decode parse 2000000 (access_token request)) = false
  /\ middleware [] parse 2000000 fetch request = mkOutcome Next [].
Proof. split; [lia | split; reflexivity]. Qed.

(** C4, as the code has it.  For every token that decodes but whose
    payload has no [exp] at all, the route guard holds the token invalid
    ([isValid] stays [false]: it is set only for a numeric, positive
    [exp]); the decoder that accepts such a token is the client-side
    [getUserFromToken], whose expiry test fires only when [exp] is
    there. *)
Theorem token_without_exp_is_invalid_for_the_guard
    (parse_guard parse_client : string -> option value)
    (to_number : value -> option Z) (now : Z) (t : string) (payload : value) :
  t <> "" ->
  parse_guard t = Some payload ->
  parse_client t = Some payload ->
  get payload "exp" = Normal None ->
  isValid (decode parse_guard now (Some t)) = false
  /\ exists user, Auth.getUserFromToken parse_client to_number now t = Some user.
Proof.
  intros Ht Hg Hc He. split; [by eapply decode_without_exp|].
  unfold Auth.getUserFromToken. rewrite Hc, He.
  destruct payload; try discriminate; simpl; eauto.
Qed.

Lemma token_without_exp_is_invalid_for_the_guard_witness :
  let payload := Obj [("sub", Num 7); ("roles", Arr [Obj [("name", Str "admin")]])] in
  let parse := fun _ : string => Some payload in
  isValid (decode parse 2000000 (Some "h.p.s")) = false
  /\ exists user,
       Auth.getUserFromToken parse (fun _ => None) 2000000 "h.p.s" = Some user.
Proof.
  intros payload parse.
  apply (token_without_exp_is_invalid_for_the_guard
           parse parse (fun _ => None) 2000000 "h.p.s" payload);
    [discriminate | reflexivity | reflexivity | reflexivity].
Defined.

(** C4 as the claim words it fails: a token without [exp] does not pass
    the guard, which sends the request to the login page. *)
Lemma token_without_exp_does_not_pass_the_guard :
  let payload := Obj [("sub", Num 7); ("roles", Arr [Obj [("name", Str "admin")]])] in
  let parse := fun _ : string => Some payload in
  let request := mkRequest "/debt/manage" "https://host/debt/manage" (Some "h.p.s") None in
  get payload "exp" = Normal None
  /\ isValid (decode parse 2000000 (access_token request)) <> true
  /\ middleware [] parse 2000000 (fun _ => NetworkError) request
     = mkOutcome (RedirectToLogin (Some "https://host/debt/manage")) [].
Proof. split; [reflexivity | split; [discriminate | reflexivity]]. Qed.

(** C5 at the input where the code misses it.  The payload is valid
    ([exp] after the clock) and its [zaloLinkStatus] is 2, but its
    [roles] array holds a [null]: [role.name] raises inside the [try]
    block after [isValid] has been set and before [zaloLinkStatus] is
    read, so the guard keeps the session valid with link status 0 and
    lets [/debt/manage] through instead of redirecting to the linking
    page. *)
Theorem link_status_is_lost_when_roles_raise :
  let payload := Obj [("exp", Num 3000); ("roles", Arr [Null]);
                      ("zaloLinkStatus", Num 2)] in
  let parse := fun _ : string => Some payload in
  let request := mkRequest "/debt/manage" "https://host/debt/manage" (Some "h.p.s") None in
  get payload "zaloLinkStatus" = Normal (Some (Num 2))
  /\ decode parse 2000000 (access_token request) = mkSession true [] 0
  /\ middleware [] parse 2000000 (fun _ => NetworkError) request
     = mkOutcome Next [].
Proof. split; [reflexivity | split; reflexivity]. Qed.

(** The same payload without the [null] is redirected. *)
Example link_status_redirects_when_roles_are_read :
  let payload := Obj [("exp", Num 3000); ("roles", Arr [Obj [("name", Str "user-kho")]]);
                      ("zaloLinkStatus", Num 2)] in
  let parse := fun _ : string => Some payload in
  let request := mkRequest "/debt/manage" "https://host/debt/manage" (Some "h.p.s") None in
  middleware [] parse 2000000 (fun _ => NetworkError) request
  = mkOutcome (Redirect "/dashboard/link-account") [].
Proof. reflexivity. Qed.

Lemma denied_path_goes_to_first_accessible_witness :
  let nav := [mkGroup "Thong ke" [mkItem "Cong no" "/statistic/debts" None];
              mkGroup "Quan tri" [mkItem "Phong ban" "/department" (Some ["admin"])]] in
  let payload := Obj [("exp", Num 3000); ("roles", Arr [Obj [("name", Str "user-cong-no")]])] in
  let parse := fun _ : string => Some payload in
  let request := mkRequest "/department" "https://host/department" (Some "h.p.s") None in
  middleware nav parse 2000000 (fun _ => NetworkError) request
  = mkOutcome (Redirect "/statistic/debts") [].
Proof.
  intros nav payload parse request.
  destruct (denied_path_goes_to_first_accessible
              nav parse 2000000 (fun _ => NetworkError) request) as [Hfirst _].
  - reflexivity.
  - discriminate.
  - discriminate.
  - exists (mkItem "Phong ban" "/department" (Some ["admin"])).
    split; [|reflexivity]. apply list_elem_of_In. simpl. auto.
  - intros item Hitem Hurl. apply list_elem_of_In in Hitem. simpl in Hitem.
    destruct Hitem as [<- | [<- | []]]; [discriminate | reflexivity].
  - apply (Hfirst [] (mkItem "Cong no" "/statistic/debts" None)
                  [mkItem "Phong ban" "/department" (Some ["admin"])]).
    + reflexivity.
    + intros i Hi. by apply elem_of_nil in Hi.
    + reflexivity.
Defined.

(** C8 as the claim words it, for every valid session, fails when the
    link status is 2: the link-status branch comes first and sends the
    denied path to the linking page, not to the first accessible item. *)
Lemma denied_path_with_link_error_goes_to_link_page :
  let nav := [mkGroup "Thong ke" [mkItem "Cong no" "/statistic/debts" None];
              mkGroup "Quan tri" [mkItem "Phong ban" "/department" (Some ["admin"])]] in
  let payload := Obj [("exp", Num 3000); ("roles", Arr [Obj [("name", Str "user-cong-no")]]);
                      ("zaloLinkStatus", Num 2)] in
  let parse := fun _ : string => Some payload in
  let request := mkRequest "/department" "https://host/department" (Some "h.p.s") None in
  let s := decode parse 2000000 (access_token request) in
  isValid s = true
  /\ Js.includes (pathname request) (allUrls nav) = true
  /\ isAccessible nav (userRoles s) (pathname request) = false
  /\ getFirstAccessibleUrl nav (userRoles s) = Some "/statistic/debts"
  /\ middleware nav parse 2000000 (fun _ => NetworkError) request
     = mkOutcome (Redirect "/dashboard/link-account") [].
Proof. repeat split. Qed.

End MiddlewareFacts.

(** ** String tests of the evaluator *)

Module StringFacts.

Local Open Scope string_scope.

Lemma startsWith_iff (s p : string) :
  Js.startsWith s p = true <-> exists rest, s = p ++ rest.
Proof.
  unfold Js.startsWith. revert s. induction p as [|a p IH]; intros s.
  - destruct s; simpl; split; eauto.
  - destruct s as [|b s]; simpl.
    + split; [discriminate | intros (rest & [=])].
    + destruct (ascii_dec a b) as [<-|Hne].
      * rewrite IH. split; intros (rest & Hs); exists rest; [by subst | by injection Hs].
      * split; [discriminate|]. intros (rest & [= Hb _]). by subst.
Qed.

Lemma substring_all (s : string) : substring 0 (String.length s) s = s.
Proof. induction s as [|c s IH]; simpl; by rewrite ?IH. Qed.

Lemma substring_after (front s : string) :
  substring (String.length front) (String.length s) (front ++ s) = s.
Proof. induction front as [|c front IH]; simpl; [apply substring_all | exact IH]. Qed.

Lemma length_app (s t : string) :
  String.length (s ++ t) = (String.length s + String.length t)%nat.
Proof. induction s as [|c s IH]; simpl; by rewrite ?IH. Qed.

Lemma substring_split (s : string) (n : nat) :
  (n <= String.length s)%nat ->
  s = substring 0 n s ++ substring n (String.length s - n) s.
Proof.
  revert s. induction n as [|n IH]; intros s Hn.
  - rewrite Nat.sub_0_r, substring_all. by destruct s.
  - destruct s as [|c s]; simpl in *; [lia|].
    f_equal. apply IH. lia.
Qed.

Lemma endsWith_iff (s suffix : string) :
  Js.endsWith s suffix = true <-> exists front, s = front ++ suffix.
Proof.
  unfold Js.endsWith. rewrite andb_true_iff, Nat.leb_le, String.eqb_eq. split.
  - intros [Hle Hsub]. exists (substring 0 (String.length s - String.length suffix) s).
    rewrite <- Hsub at 2.
    rewrite (substring_split s (String.length s - String.length suffix)) at 1 by lia.
    do 2 f_equal. lia.
  - intros (front & ->). rewrite length_app. split; [lia|].
    replace (String.length front + String.length suffix - String.length suffix)%nat
      with (String.length front) by lia.
    apply substring_after.
Qed.

(** Two [name:action] keys whose names have no colon are equal only for
    equal names and equal actions. *)
Lemma colon_free_key_inj (n1 a1 n2 a2 : string) :
  DynamicPermission.colon_free n1 = true ->
  DynamicPermission.colon_free n2 = true ->
  n1 ++ ":" ++ a1 = n2 ++ ":" ++ a2 ->
  n1 = n2 /\ a1 = a2.
Proof.
  revert n2. induction n1 as [|c n1 IH]; intros [|d n2]; simpl.
  - by intros _ _ [= ->].
  - intros _ [Hd _]%andb_true_iff [= <- _]. by rewrite Ascii.eqb_refl in Hd.
  - intros [Hc _]%andb_true_iff _ [= -> _]. by rewrite Ascii.eqb_refl in Hc.
  - intros [_ H1]%andb_true_iff [_ H2]%andb_true_iff [= -> Heq].
    destruct (IH n2 H1 H2 Heq) as [-> ->]. done.
Qed.

(** With the same name in front, equal keys have equal actions. *)
Lemma same_name_key_inj (n a1 a2 : string) :
  n ++ ":" ++ a1 = n ++ ":" ++ a2 -> a1 = a2.
Proof. induction n as [|c n IH]; simpl; intros [= H]; auto. Qed.

End StringFacts.

(** ** The other clauses of the evaluator *)

Module EvaluatorFacts.

Import DynamicPermission DynamicPermissionFacts.
Local Open Scope list_scope.

Lemma not_admin user : isAdmin user = false -> "admin" ∉ userRoles user.
Proof. intros H Hin%isAdmin_elem_of. congruence. Qed.

Lemma isManager_iff user :
  isManager user = true <-> exists role, role ∈ userRoles user /\ manager_role role.
Proof.
  unfold isManager, manager_role. rewrite existsb_elem_of.
  split; intros (role & Hin & H); exists role; (split; [done|]).
  - apply orb_true_iff in H as [H%String.eqb_eq | H%StringFacts.startsWith_iff]; auto.
  - apply orb_true_iff. destruct H as [-> | H]; [left; apply String.eqb_refl|].
    right. by apply StringFacts.startsWith_iff.
Qed.

(** What the evaluator answers to a non-admin for a department alone. *)
Lemma department_only_nonadmin (u : UserWithPermissions) (d : string) :
  isAdmin (Some u) = false -> d <> "" ->
  (checkDynamicPermission (Some u) (department_only d) = true
   <-> (exists dept, dept ∈ userDepartments (Some u) /\ Department.slug dept = d)
       \/ (exists role, role ∈ userRoles (Some u) /\ dash_suffix role d)).
Proof.
  intros Hadm Hd. unfold checkDynamicPermission, department_only.
  rewrite Hadm. apply truthy_str_Some in Hd.
  cbn [requireAdmin requireManager requireSpecificRole requireAnyRole
       departmentSlug action Js.truthy_bool]. rewrite Hd.
  change (Js.truthy_str None) with false. cbn [andb negb].
  rewrite orb_true_iff, !existsb_elem_of. unfold dash_suffix. split.
  - intros [(dept & Hin & Heq%strict_eq_Some) | (role & Hin & Hend%StringFacts.endsWith_iff)];
      [left | right]; eauto.
  - intros [(dept & Hin & Heq) | (role & Hin & Hend)]; [left | right].
    + exists dept. split; [done|]. by apply strict_eq_Some.
    + exists role. split; [done|]. by apply StringFacts.endsWith_iff.
Qed.

(** X1. Department-only check (lines 92 to 96): for every authenticated
    user and every non-empty slug, [{departmentSlug}] is allowed exactly
    when the user is an admin, has a department with that slug, or holds
    a role that ends with a dash and the slug, whatever comes before the
    dash. *)
Theorem department_only_iff_member_or_role_suffix
    (u : UserWithPermissions) (d : string) :
  d <> "" ->
  (checkDynamicPermission (Some u) (department_only d) = true
   <-> "admin" ∈ userRoles (Some u)
       \/ (exists dept, dept ∈ userDepartments (Some u) /\ Department.slug dept = d)
       \/ (exists role, role ∈ userRoles (Some u) /\ dash_suffix role d)).
Proof.
  intros Hd. destruct (isAdmin (Some u)) eqn:Hadm.
  - unfold checkDynamicPermission. rewrite Hadm.
    apply isAdmin_elem_of in Hadm. tauto.
  - rewrite department_only_nonadmin by done.
    apply not_admin in Hadm. tauto.
Qed.

Lemma department_only_iff_member_or_role_suffix_witness :
  let u := mkUser (Some [Role.mk "user-cong-no"]) None (Some []) in
  checkDynamicPermission (Some u) (department_only "cong-no") = true.
Proof.
  intros u.
  apply (department_only_iff_member_or_role_suffix u "cong-no"); [discriminate|].
  right. right. exists "user-cong-no". split.
  - apply list_elem_of_here.
  - by exists "user".
Defined.

(** X2. A check with [requireAdmin: true] is decided by the admin role
    alone: whatever else the check holds (department, action, other
    requirements), an authenticated user passes it exactly when the roles
    include [admin]. *)
Theorem require_admin_is_decided_by_the_role
    (u : UserWithPermissions) (check : DynamicPermissionCheck) :
  requireAdmin check = Some true ->
  (checkDynamicPermission (Some u) check = true <-> "admin" ∈ userRoles (Some u)).
Proof.
  intros Hreq. unfold checkDynamicPermission.
  destruct (isAdmin (Some u)) eqn:Hadm.
  - apply isAdmin_elem_of in Hadm. tauto.
  - rewrite Hreq. simpl. apply not_admin in Hadm. split; [discriminate | done].
Qed.

Lemma require_admin_is_decided_by_the_role_witness :
  let u := mkUser (Some [Role.mk "manager-kho"])
                  (Some [Permission.mk 1 "kho" "read"]) None in
  let check := mkCheck (Some "kho") (Some "read") (Some true) None None None in
  checkDynamicPermission (Some u) check = true <-> "admin" ∈ userRoles (Some u).
Proof.
  intros u check. by apply (require_admin_is_decided_by_the_role u check).
Defined.

(** X3. The four role requirements only restrict: a check that a user
    passes is still passed once [requireAdmin], [requireManager],
    [requireSpecificRole] and [requireAnyRole] are taken away from it. *)
Theorem requirements_only_restrict
    (user : option UserWithPermissions) (check : DynamicPermissionCheck) :
  checkDynamicPermission user check = true ->
  checkDynamicPermission user (without_requirements check) = true.
Proof.
  unfold checkDynamicPermission, without_requirements.
  destruct user as [u|]; [|done].
  destruct (isAdmin (Some u)); [done|].
  cbn [requireAdmin requireManager requireSpecificRole requireAnyRole
       departmentSlug action Js.truthy_bool Js.truthy_str andb].
  destruct (Js.truthy_bool (requireAdmin check) && negb false); [done|].
  destruct (Js.truthy_bool (requireManager check) && negb (isManager (Some u)));
    [done|].
  destruct (Js.truthy_str (requireSpecificRole check)
            && negb (Js.includes_opt (requireSpecificRole check) (userRoles (Some u))));
    [done|].
  destruct (requireAnyRole check) as [rs|]; [|done].
  by destruct (negb (existsb (fun role => Js.includes role (userRoles (Some u))) rs)).
Qed.

Lemma requirements_only_restrict_witness :
  let user := Some (mkUser (Some [Role.mk "manager-kho"])
                           (Some [Permission.mk 1 "kho" "read"]) None) in
  checkDynamicPermission user
    (without_requirements
       (mkCheck (Some "kho") (Some "read") None (Some true) None (Some ["manager-kho"])))
  = true.
Proof.
  intros user. by apply requirements_only_restrict.
Defined.

(** X4. [{requireManager: true}]: an authenticated user passes exactly
    when the roles include [admin], or [manager], or a role that starts
    with [manager-]. *)
Theorem require_manager_iff (u : UserWithPermissions) :
  checkDynamicPermission (Some u) (mkCheck None None None (Some true) None None) = true
  <-> "admin" ∈ userRoles (Some u)
      \/ exists role, role ∈ userRoles (Some u) /\ manager_role role.
Proof.
  rewrite <- isManager_iff. unfold checkDynamicPermission.
  destruct (isAdmin (Some u)) eqn:Hadm.
  - apply isAdmin_elem_of in Hadm. tauto.
  - apply not_admin in Hadm. simpl.
    destruct (isManager (Some u)); simpl; split; auto.
    intros [? | ?]; done.
Qed.

(** X5. [{requireAnyRole: rs}]: an authenticated user passes exactly when
    the roles include [admin] or one of [rs]; with the empty list no one
    but an admin passes. *)
Theorem require_any_role_iff (u : UserWithPermissions) (rs : list string) :
  (checkDynamicPermission (Some u) (mkCheck None None None None None (Some rs)) = true
   <-> "admin" ∈ userRoles (Some u)
       \/ exists role, role ∈ rs /\ role ∈ userRoles (Some u))
  /\ (checkDynamicPermission (Some u) (mkCheck None None None None None (Some [])) = true
      <-> "admin" ∈ userRoles (Some u)).
Proof.
  unfold checkDynamicPermission.
  destruct (isAdmin (Some u)) eqn:Hadm.
  { apply isAdmin_elem_of in Hadm. tauto. }
  apply not_admin in Hadm.
  cbn [requireAdmin requireManager requireSpecificRole requireAnyRole
       departmentSlug action Js.truthy_bool Js.truthy_str andb]. split.
  - destruct (existsb (fun role => Js.includes role (userRoles (Some u))) rs) eqn:Hex;
      cbn [negb].
    + apply existsb_elem_of in Hex as (role & Hin & Hinc%includes_elem_of).
      split; eauto.
    + split; [discriminate|]. intros [? | (role & Hin & Hinc)]; [done|].
      assert (Hex' : existsb (fun role => Js.includes role (userRoles (Some u))) rs
                     = true).
      { apply existsb_elem_of. exists role. split; [done|]. by apply includes_elem_of. }
      rewrite Hex in Hex'. discriminate.
  - simpl. split; [discriminate | done].
Qed.

(** X6. [{requireSpecificRole: r}]: an authenticated user passes exactly
    when [r] is the empty string (the requirement is then not seen), or
    the roles include [admin] or [r]. *)
Theorem require_specific_role_iff (u : UserWithPermissions) (r : string) :
  checkDynamicPermission (Some u) (mkCheck None None None None (Some r) None) = true
  <-> r = "" \/ "admin" ∈ userRoles (Some u) \/ r ∈ userRoles (Some u).
Proof.
  unfold checkDynamicPermission.
  destruct (isAdmin (Some u)) eqn:Hadm.
  { apply isAdmin_elem_of in Hadm. tauto. }
  apply not_admin in Hadm.
  cbn [requireAdmin requireManager requireSpecificRole requireAnyRole
       departmentSlug action Js.truthy_bool Js.truthy_str Js.includes_opt andb].
  destruct (String.eqb_spec r "") as [->|Hr]; cbn [negb andb]; [by split; auto|].
  destruct (Js.includes r (userRoles (Some u))) eqn:Hinc; cbn [negb].
  - apply includes_elem_of in Hinc. by split; auto.
  - split; [discriminate|]. intros [? | [? | Hin%includes_elem_of]]; congruence.
Qed.

(** X7. Without a user the OR of any list of checks is false, and the
    AND is true for the empty list only: an absent user passes
    [checkAllPermissions([])]. *)
Theorem absent_user_any_and_all (checks : list DynamicPermissionCheck) :
  checkAnyPermission None checks = false
  /\ (checkAllPermissions None checks = true <-> checks = []).
Proof.
  unfold checkAnyPermission, checkAllPermissions. split.
  - induction checks as [|c checks IH]; [done|]. simpl. exact IH.
  - destruct checks as [|c checks]; simpl; split; done.
Qed.

End EvaluatorFacts.

(** ** The snapshot against the list it comes from *)

Module SnapshotMoreFacts.

Import DynamicPermission DynamicPermissionFacts SnapshotFacts.
Local Open Scope list_scope.

Lemma snapshot_keys_NoDup (user : option UserWithPermissions) :
  NoDup (map key (userPermissions user)).
Proof.
  unfold userPermissions. destruct user as [u|]; [|constructor].
  destruct (permissions u) as [ps|]; [|constructor].
  destruct (loop_invariant_end ps) as [Hkeys Hnodup _ _ _]. by rewrite <- Hkeys.
Qed.

(** A list whose keys are pairwise distinct goes through the loop
    unchanged. *)
Lemma fold_distinct_keys (ps : list Permission.t) :
  NoDup (map key ps) ->
  fold_left add_permission ps [] = map (fun p => (key p, p)) ps.
Proof.
  induction ps as [|p ps IH] using rev_ind; [done|].
  rewrite map_app, NoDup_app. intros (Hps & Hfresh & _).
  rewrite fold_left_app, map_app. simpl. rewrite IH by done.
  rewrite add_permission_fresh; [done|].
  apply not_true_is_false. intros Hhas%has_elem_of.
  rewrite map_map in Hhas. simpl in Hhas.
  apply (Hfresh (key p)); [done | apply list_elem_of_here].
Qed.

Lemma values_of_keyed (ps : list Permission.t) :
  values (map (fun p => (key p, p)) ps) = ps.
Proof. unfold values. rewrite map_map. simpl. apply map_id. Qed.

(** X8. A permission list in which no [name:action] key occurs twice is
    its own snapshot: nothing is dropped and nothing is moved. *)
Theorem snapshot_of_distinct_keys
    (u : UserWithPermissions) (ps : list Permission.t) :
  permissions u = Some ps ->
  NoDup (map key ps) ->
  userPermissions (Some u) = ps.
Proof.
  intros Hps Hnd. unfold userPermissions. rewrite Hps.
  rewrite fold_distinct_keys by done. apply values_of_keyed.
Qed.

Lemma snapshot_of_distinct_keys_witness :
  let ps := [Permission.mk 1 "kho" "read"; Permission.mk 2 "kho" "create"] in
  userPermissions (Some (mkUser None (Some ps) None)) = ps.
Proof.
  intros ps. apply (snapshot_of_distinct_keys (mkUser None (Some ps) None) ps eq_refl).
  repeat constructor; rewrite ?elem_of_cons, ?elem_of_nil; intros H;
    repeat destruct H as [H | H]; try discriminate; done.
Defined.

(** X9. Taking the snapshot twice changes nothing: a user whose
    permission list is already a snapshot gets that list back. *)
Theorem snapshot_is_idempotent
    (user : option UserWithPermissions)
    (rs : option (list Role.t)) (ds : option (list Department.t)) :
  userPermissions (Some (mkUser rs (Some (userPermissions user)) ds))
  = userPermissions user.
Proof.
  unfold userPermissions at 1. simpl.
  rewrite fold_distinct_keys by apply snapshot_keys_NoDup.
  apply values_of_keyed.
Qed.

(** X10. When no permission name of the list holds a colon, the snapshot
    loses no grant: it has an entry for [(d, a)] exactly when the list
    has one. *)
Theorem colon_free_names_keep_every_grant
    (u : UserWithPermissions) (ps : list Permission.t) (d a : string) :
  permissions u = Some ps ->
  (forall p, p ∈ ps -> colon_free (Permission.name p) = true) ->
  (grants (Some u) d a
   <-> exists p, p ∈ ps /\ Permission.name p = d /\ Permission.action p = a).
Proof.
  intros Hps Hfree. unfold grants, userPermissions. rewrite Hps.
  destruct (loop_invariant_end ps) as [Hkeys _ Hdom _ Horder]. split.
  - intros (q & Hq & Hname & Hact). exists q. split; [|done].
    eapply elem_of_sublist; [exact Hq | exact Horder].
  - intros (p & Hp & Hname & Hact).
    assert (Hk : key p ∈ map fst (fold_left add_permission ps [])).
    { apply Hdom. eauto. }
    rewrite Hkeys in Hk. apply list_elem_of_fmap in Hk as (q & Hk & Hq).
    exists q. split; [done|].
    assert (Hqps : q ∈ ps) by (eapply elem_of_sublist; [exact Hq | exact Horder]).
    destruct (StringFacts.colon_free_key_inj
                (Permission.name p) (Permission.action p)
                (Permission.name q) (Permission.action q)) as [Hn Ha];
      [by apply Hfree | by apply Hfree | exact Hk |].
    split; congruence.
Qed.

Lemma colon_free_names_keep_every_grant_witness :
  let ps := [Permission.mk 1 "kho" "read"; Permission.mk 2 "kho" "read";
             Permission.mk 3 "cong-no" "export"] in
  grants (Some (mkUser None (Some ps) None)) "cong-no" "export".
Proof.
  intros ps.
  apply (colon_free_names_keep_every_grant (mkUser None (Some ps) None) ps
           "cong-no" "export" eq_refl).
  - intros p Hp. apply list_elem_of_In in Hp. simpl in Hp.
    destruct Hp as [<- | [<- | [<- | []]]]; reflexivity.
  - exists (Permission.mk 3 "cong-no" "export"). split; [|done].
    apply list_elem_of_In. simpl. auto.
Defined.

End SnapshotMoreFacts.

(** ** The per-department summary and the wrappers *)

Module SummaryFacts.

Import DynamicPermission DynamicPermissionFacts.
Local Open Scope list_scope.

(** Searching the snapshot for a name and an action, and searching the
    actions of the entries of that name. *)
Lemma some_permission_as_action (l : list Permission.t) (d a : string) :
  existsb
    (fun permission =>
       Js.strict_eq (Permission.name permission) (Some d)
       && Js.strict_eq (Permission.action permission) (Some a)) l
  = Js.includes a
      (map Permission.action
           (List.filter (fun p => String.eqb (Permission.name p) d) l)).
Proof.
  unfold Js.includes. induction l as [|p l IH]; [done|].
  cbn [existsb List.filter]. rewrite IH. unfold Js.strict_eq.
  destruct (String.eqb (Permission.name p) d); cbn [andb orb map existsb].
  - by rewrite (String.eqb_sym a).
  - done.
Qed.

Lemma wrapper_eq (u : UserWithPermissions) (slug a : string) :
  slug <> "" -> a <> "" ->
  checkDynamicPermission (Some u) (department_action slug a)
  = isAdmin (Some u)
    || Js.includes a (DepartmentSummary.actions
                        (getPermissionsByDepartment (Some u) slug)).
Proof.
  intros Hs Ha. destruct (isAdmin (Some u)) eqn:Hadm.
  - unfold checkDynamicPermission. by rewrite Hadm.
  - rewrite check_department_action_nonadmin by done.
    apply some_permission_as_action.
Qed.

(** X11. For every authenticated user and every non-empty slug, each of
    the six [can...Department] wrappers answers what the matching flag of
    [getPermissionsByDepartment(slug)] says, except that an admin gets
    true from the wrappers whatever the flags: the summary does not look
    at the admin role. *)
Theorem wrappers_agree_with_summary (u : UserWithPermissions) (slug : string) :
  slug <> "" ->
  let summary := getPermissionsByDepartment (Some u) slug in
  canReadDepartment (Some u) slug
    = isAdmin (Some u) || DepartmentSummary.canRead summary
  /\ canCreateInDepartment (Some u) slug
    = isAdmin (Some u) || DepartmentSummary.canCreate summary
  /\ canUpdateInDepartment (Some u) slug
    = isAdmin (Some u) || DepartmentSummary.canUpdate summary
  /\ canDeleteInDepartment (Some u) slug
    = isAdmin (Some u) || DepartmentSummary.canDelete summary
  /\ canImportInDepartment (Some u) slug
    = isAdmin (Some u) || DepartmentSummary.canImport summary
  /\ canExportInDepartment (Some u) slug
    = isAdmin (Some u) || DepartmentSummary.canExport summary.
Proof.
  intros Hs summary.
  repeat split; apply (wrapper_eq u slug); done.
Qed.

Lemma wrappers_agree_with_summary_witness :
  let u := mkUser (Some [Role.mk "user-kho"])
                  (Some [Permission.mk 1 "kho" "read"; Permission.mk 2 "kho" "export"])
                  None in
  canReadDepartment (Some u) "kho"
  = isAdmin (Some u)
    || DepartmentSummary.canRead (getPermissionsByDepartment (Some u) "kho").
Proof.
  intros u.
  destruct (wrappers_agree_with_summary u "kho") as [H _]; [discriminate | exact H].
Defined.

(** X12. The [actions] of a summary never repeat an action: the
    snapshot holds each [name:action] key once, and under one name the
    key determines the action. *)
Theorem summary_actions_are_distinct
    (user : option UserWithPermissions) (slug : string) :
  NoDup (DepartmentSummary.actions (getPermissionsByDepartment user slug)).
Proof.
  unfold getPermissionsByDepartment. simpl.
  pose proof (SnapshotMoreFacts.snapshot_keys_NoDup user) as Hnd.
  induction (userPermissions user) as [|p l IH]; simpl; [constructor|].
  apply NoDup_cons in Hnd as [Hp Hl].
  destruct (String.eqb_spec (Permission.name p) slug) as [Hname|Hname];
    simpl; [|by apply IH].
  apply NoDup_cons. split; [|by apply IH].
  intros Hin. apply Hp.
  apply list_elem_of_fmap in Hin as (q & Hact & Hq).
  apply list_elem_of_In, filter_In in Hq as [Hq Hqn].
  apply String.eqb_eq in Hqn. apply list_elem_of_fmap. exists q.
  split; [|by apply list_elem_of_In].
  unfold key. by rewrite Hname, Hqn, Hact.
Qed.

(** X13. Every slug that [getAccessibleDepartments()] returns passes the
    department-only check of the same user. *)
Theorem accessible_department_passes_department_check
    (u : UserWithPermissions) (s : string) :
  s ∈ getAccessibleDepartments (Some u) ->
  checkDynamicPermission (Some u) (department_only s) = true.
Proof.
  intros Hin.
  destruct (String.eqb_spec s "") as [->|Hs].
  { unfold checkDynamicPermission. by destruct (isAdmin (Some u)). }
  destruct (isAdmin (Some u)) eqn:Hadm.
  { unfold checkDynamicPermission. by rewrite Hadm. }
  apply EvaluatorFacts.department_only_nonadmin; [done | done |].
  revert Hin. unfold getAccessibleDepartments.
  destruct (DepartmentFacts.fold_set_add
              (fun dept => Some (Department.slug dept))
              (fun acc dept => Js.set_add (Department.slug dept) acc)
              (fun _ _ => eq_refl) (userDepartments (Some u)) [])
    as [Hnd1 Hin1]; [constructor|].
  destruct (DepartmentFacts.fold_set_add role_match_group2
              (fun acc role => match role_match_group2 role with
                               | Some g => Js.set_add g acc
                               | None => acc
                               end)
              (fun _ _ => eq_refl) (userRoles (Some u)) _ Hnd1)
    as [_ Hin2].
  rewrite Hin2, Hin1.
  intros [[?%elem_of_nil | (dept & Hd & [= Hslug])] | (role & Hr & Hm)]; [done | |].
  - left. eauto.
  - right. exists role. split; [done|].
    apply DepartmentFacts.role_match_group2_captures in Hm
      as (kind & _ & -> & _). by exists kind.
Qed.

Lemma accessible_department_passes_department_check_witness :
  let u := mkUser (Some [Role.mk "manager-kho"]) None None in
  checkDynamicPermission (Some u) (department_only "kho") = true.
Proof.
  intros u. apply accessible_department_passes_department_check.
  apply list_elem_of_here.
Defined.

End SummaryFacts.

(** ** The other branches of the route guard *)

Module GuardFacts.

Import Json Middleware MiddlewareFacts.
Local Open Scope list_scope.

Section Guarding.

Variable navItems : list NavGroup.
Variable parse_segment : string -> option value.
Variable now : Z.
Variable fetch_refresh : string -> FetchResult.

Lemma isAccessible_iff (userRoles : list value) (u : string) :
  isAccessible navItems userRoles u = true
  <-> exists item, item ∈ all_items navItems
                   /\ url item = u /\ item_open userRoles item = true.
Proof.
  unfold isAccessible, all_items. rewrite existsb_elem_of. split.
  - intros (g & Hg & (item & Hitem & H)%existsb_elem_of).
    apply andb_true_iff in H as [Hu%String.eqb_eq Hopen].
    exists item. split; [|done].
    apply list_elem_of_In, in_flat_map. exists g. split; by apply list_elem_of_In.
  - intros (item & (g & Hg & Hitem)%list_elem_of_In%in_flat_map & Hu & Hopen).
    exists g. split; [by apply list_elem_of_In|].
    apply existsb_elem_of. exists item. split; [by apply list_elem_of_In|].
    apply andb_true_iff. split; [by apply String.eqb_eq | done].
Qed.

Lemma first_in_items_Some (userRoles : list value) (l : list NavItem) (u : string) :
  first_in_items userRoles l = Some u ->
  exists item, item ∈ l /\ url item = u /\ item_open userRoles item = true.
Proof.
  induction l as [|i l IH]; [done|]. simpl.
  destruct (item_open userRoles i) eqn:Hopen.
  - intros [= <-]. exists i. split; [apply list_elem_of_here | done].
  - intros (item & Hin & H)%IH. exists item. split; [|done].
    by apply list_elem_of_further.
Qed.

Lemma in_landing_paths (p : string) :
  String.eqb p "/" || String.eqb p "/login" || String.eqb p "/dashboard" = true
  <-> p ∈ landing_paths.
Proof.
  unfold landing_paths. rewrite !orb_true_iff, !String.eqb_eq,
    !elem_of_cons, elem_of_nil. tauto.
Qed.

Lemma not_in_landing_paths (p : string) :
  p ∉ landing_paths ->
  String.eqb p "/" || String.eqb p "/login" || String.eqb p "/dashboard" = false.
Proof. intros H. apply not_true_is_false. by rewrite in_landing_paths. Qed.

Lemma first_url_found (userRoles : list value) (u : string) :
  getFirstAccessibleUrl navItems userRoles = Some u ->
  exists item, item ∈ all_items navItems
               /\ url item = u /\ item_open userRoles item = true.
Proof.
  unfold getFirstAccessibleUrl. rewrite first_in_groups_flat.
  apply first_in_items_Some.
Qed.

(** X14. The first accessible url is accessible: what
    [getFirstAccessibleUrl] returns for some roles is a url of the table
    that [isAccessible] accepts for the same roles. *)
Theorem first_accessible_url_is_accessible (userRoles : list value) (u : string) :
  getFirstAccessibleUrl navItems userRoles = Some u ->
  isAccessible navItems userRoles u = true
  /\ Js.includes u (allUrls navItems) = true.
Proof.
  intros (item & Hin & Hu & Hopen)%first_url_found. split.
  - apply isAccessible_iff. eauto.
  - apply allUrls_elem_of. eauto.
Qed.

(** X15. More roles never close a path: when every role of one session
    is a role of another, each url accessible to the first is accessible
    to the second. *)
Theorem access_grows_with_roles (small large : list value) (u : string) :
  roles_included small large ->
  isAccessible navItems small u = true ->
  isAccessible navItems large u = true.
Proof.
  intros Hinc. rewrite !isAccessible_iff.
  intros (item & Hin & Hu & Hopen). exists item. split; [done|]. split; [done|].
  apply item_open_iff in Hopen. apply item_open_iff.
  destruct Hopen as [Hnone | (rs & role & Hrs & Hrole & Hstr)]; [by left|].
  right. exists rs, role. auto.
Qed.

(** X16. The linking page is open to every valid session: whatever the
    link status, the roles and the table, the guard answers [next()]
    without any refresh call. *)
Theorem link_page_is_let_through (request : NextRequest) :
  isValid (decode parse_segment now (access_token request)) = true ->
  pathname request = zaloLinkPath ->
  middleware navItems parse_segment now fetch_refresh request = mkOutcome Next [].
Proof.
  intros Hv Hp. unfold middleware. rewrite Hv, Hp, String.eqb_refl.
  by destruct (_ =? 2).
Qed.

(** A valid session without link error, off the landing paths, on a
    path that the table does not refuse. *)
Lemma middleware_not_denied request :
  isValid (decode parse_segment now (access_token request)) = true ->
  zaloLinkStatus (decode parse_segment now (access_token request)) <> 2 ->
  pathname request ∉ landing_paths ->
  Js.includes (pathname request) (allUrls navItems)
  && negb (isAccessible navItems
             (userRoles (decode parse_segment now (access_token request)))
             (pathname request)) = false ->
  middleware navItems parse_segment now fetch_refresh request = mkOutcome Next [].
Proof.
  intros Hv Hz Hland Hok. unfold middleware.
  rewrite Hv, Hok. apply Z.eqb_neq in Hz. rewrite Hz.
  rewrite (not_in_landing_paths _ Hland). cbn [andb negb].
  destruct (String.eqb (pathname request) zaloLinkPath); [done|].
  by destruct (Js.includes (pathname request) publicPaths).
Qed.

(** X17. A valid session without link error continues on every path
    that is none of [/], [/login], [/dashboard] and that is either absent
    from the navigation table or accessible to its roles. *)
Theorem authorized_path_continues (request : NextRequest) :
  let s := decode parse_segment now (access_token request) in
  isValid s = true ->
  zaloLinkStatus s <> 2 ->
  pathname request ∉ landing_paths ->
  (forall item, item ∈ all_items navItems -> url item <> pathname request)
  \/ (exists item, item ∈ all_items navItems /\ url item = pathname request
                   /\ item_open (userRoles s) item = true) ->
  middleware navItems parse_segment now fetch_refresh request = mkOutcome Next [].
Proof.
  intros s Hv Hz Hland Hok. apply middleware_not_denied; try done. fold s.
  destruct Hok as [Habsent | Hopen].
  - assert (Hin : Js.includes (pathname request) (allUrls navItems) = false).
    { apply not_true_is_false. intros (item & Hin & Hu)%allUrls_elem_of.
      by apply (Habsent item). }
    by rewrite Hin.
  - apply isAccessible_iff in Hopen. rewrite Hopen. by rewrite andb_false_r.
Qed.

(** X18. Landing: a valid session without link error that asks for [/],
    [/login] or [/dashboard] is redirected to the url of the first item
    open to its roles when that url is not empty, and is let through
    when no item is open. *)
Theorem landing_paths_go_to_first_accessible (request : NextRequest) :
  let s := decode parse_segment now (access_token request) in
  isValid s = true ->
  zaloLinkStatus s <> 2 ->
  pathname request ∈ landing_paths ->
  (forall l1 item l2,
      all_items navItems = l1 ++ item :: l2 ->
      (forall i, i ∈ l1 -> item_open (userRoles s) i = false) ->
      item_open (userRoles s) item = true ->
      url item <> "" ->
      middleware navItems parse_segment now fetch_refresh request
      = mkOutcome (Redirect (url item)) [])
  /\ ((forall i, i ∈ all_items navItems -> item_open (userRoles s) i = false) ->
      middleware navItems parse_segment now fetch_refresh request
      = mkOutcome Next []).
Proof.
  intros s Hv Hz Hland.
  assert (Hlink : String.eqb (pathname request) zaloLinkPath = false).
  { apply String.eqb_neq. intros Heq. rewrite Heq in Hland.
    unfold landing_paths in Hland.
    rewrite !elem_of_cons, elem_of_nil in Hland.
    destruct Hland as [? | [? | [? | []]]]; discriminate. }
  apply in_landing_paths in Hland.
  unfold middleware. fold s. rewrite Hv, Hland, Hlink.
  apply Z.eqb_neq in Hz. rewrite Hz. cbn [andb negb].
  unfold landing, getFirstAccessibleUrl. rewrite first_in_groups_flat. split.
  - intros l1 item l2 -> Hl1 Hitem Hurl.
    rewrite first_in_items_found by done.
    apply String.eqb_neq in Hurl. by rewrite Hurl.
  - intros Hnone. rewrite first_in_items_none by done.
    destruct (Js.includes (pathname request) publicPaths); [done|].
    by destruct (Js.includes _ _ && _).
Qed.

(** X19. The landing url is a resting place unless it is itself one of
    the three landing paths: a valid session without link error that asks
    for its own first accessible url is let through when that url is none
    of [/], [/login], [/dashboard], and is redirected to the very url it
    asked for when it is one of them. *)
Theorem request_for_the_landing_url (request : NextRequest) :
  let s := decode parse_segment now (access_token request) in
  isValid s = true ->
  zaloLinkStatus s <> 2 ->
  getFirstAccessibleUrl navItems (userRoles s) = Some (pathname request) ->
  (pathname request ∉ landing_paths ->
   middleware navItems parse_segment now fetch_refresh request = mkOutcome Next [])
  /\ (pathname request ∈ landing_paths ->
      middleware navItems parse_segment now fetch_refresh request
      = mkOutcome (Redirect (pathname request)) []).
Proof.
  intros s Hv Hz Hfirst. split.
  - intros Hland. apply middleware_not_denied; try done. fold s.
    apply first_url_found in Hfirst.
    apply isAccessible_iff in Hfirst. rewrite Hfirst. by rewrite andb_false_r.
  - intros Hland.
    assert (Hne : String.eqb (pathname request) "" = false).
    { apply String.eqb_neq. intros Heq. rewrite Heq in Hland.
      unfold landing_paths in Hland.
      rewrite !elem_of_cons, elem_of_nil in Hland.
      destruct Hland as [? | [? | [? | []]]]; discriminate. }
    assert (Hlink : String.eqb (pathname request) zaloLinkPath = false).
    { apply String.eqb_neq. intros Heq. rewrite Heq in Hland.
      unfold landing_paths in Hland.
      rewrite !elem_of_cons, elem_of_nil in Hland.
      destruct Hland as [? | [? | [? | []]]]; discriminate. }
    apply in_landing_paths in Hland.
    unfold middleware. fold s. rewrite Hv, Hland, Hlink.
    apply Z.eqb_neq in Hz. rewrite Hz. cbn [andb negb].
    unfold landing. rewrite Hfirst, Hne. done.
Qed.

(** X20. The guard calls the refresh endpoint at most once, and only
    for an invalid session, off the public path, with the refresh token
    of the request. *)
Theorem refresh_is_called_only_for_invalid_sessions (request : NextRequest) :
  refresh_calls (middleware navItems parse_segment now fetch_refresh request) = []
  \/ (isValid (decode parse_segment now (access_token request)) = false
      /\ pathname request <> "/login"
      /\ exists r, refresh_token request = Some r /\ r <> ""
                   /\ refresh_calls
                        (middleware navItems parse_segment now fetch_refresh request)
                      = [r]).
Proof.
  destruct (isValid (decode parse_segment now (access_token request))) eqn:Hv.
  - left. unfold middleware. rewrite Hv. cbn [andb negb].
    destruct (_ =? 2); [by destruct (negb _)|].
    destruct (String.eqb (pathname request) zaloLinkPath); [done|].
    destruct (if _ || _ || _ then _ else None); [done|].
    destruct (Js.includes (pathname request) publicPaths); [done|].
    by destruct (if _ && _ then _ else None).
  - destruct (String.eqb_spec (pathname request) "/login") as [Hp|Hp].
    + left. by rewrite middleware_invalid_public.
    + rewrite middleware_invalid by done.
      destruct (refresh_token request) as [r|] eqn:Hr.
      * destruct (String.eqb_spec r "") as [->|Hne].
        -- left. rewrite recover_without_refresh_token; [done | by rewrite Hr].
        -- right. split; [done|]. split; [done|]. exists r.
           split; [done|]. split; [done|].
           by apply recover_with_refresh_token.
      * left. rewrite recover_without_refresh_token; [done | by rewrite Hr].
Qed.

(** X21. Without a usable token and without a refresh token: a request
    whose [access_token] cookie is absent, empty or not decodable is let
    through on [/login] and is otherwise redirected to the login page,
    with the requested address as [callbackUrl] unless the path starts
    with [/login]; no refresh call is made. *)
Theorem request_without_session_goes_to_login (request : NextRequest) :
  access_token request = None
  \/ access_token request = Some ""
  \/ (exists t, access_token request = Some t /\ parse_segment t = None) ->
  Js.truthy_str (refresh_token request) = false ->
  middleware navItems parse_segment now fetch_refresh request
  = if String.eqb (pathname request) "/login"
    then mkOutcome Next []
    else mkOutcome
           (RedirectToLogin
              (if Js.startsWith (pathname request) "/login"
               then None else Some (href request)))
           [].
Proof.
  intros Htok Href.
  assert (Hv : isValid (decode parse_segment now (access_token request)) = false).
  { unfold decode. destruct Htok as [-> | [-> | (t & -> & Hp)]]; [done | done |].
    destruct (Js.truthy_str (Some t)); [|done]. simpl. by rewrite Hp. }
  destruct (String.eqb_spec (pathname request) "/login") as [Hp|Hp].
  - by apply middleware_invalid_public.
  - rewrite middleware_invalid by done.
    rewrite recover_without_refresh_token by done.
    unfold login_redirect. by destruct (Js.startsWith _ _).
Qed.

End Guarding.

Lemma authorized_path_continues_witness :
  let nav := [mkGroup "Thong ke" [mkItem "Cong no" "/statistic/debts" None]] in
  let parse := fun _ : string => Some (Obj [("exp", Num 3000)]) in
  middleware nav parse 2000000 (fun _ => NetworkError)
    (mkRequest "/statistic/debts" "https://host/statistic/debts" (Some "h.p.s") None)
  = mkOutcome Next [].
Proof.
  intros nav parse. apply authorized_path_continues.
  - reflexivity.
  - discriminate.
  - unfold landing_paths. rewrite !elem_of_cons, elem_of_nil.
    intros [? | [? | [? | []]]]; discriminate.
  - right. exists (mkItem "Cong no" "/statistic/debts" None).
    split; [apply list_elem_of_here | done].
Defined.

Lemma link_page_is_let_through_witness :
  let parse := fun _ : string => Some (Obj [("exp", Num 3000); ("zaloLinkStatus", Num 1)]) in
  middleware [] parse 2000000 (fun _ => NetworkError)
    (mkRequest "/dashboard/link-account" "https://host/dashboard/link-account"
               (Some "h.p.s") None)
  = mkOutcome Next [].
Proof.
  intros parse. apply link_page_is_let_through; reflexivity.
Defined.

Lemma first_accessible_url_is_accessible_witness :
  let nav := [mkGroup "Quan tri" [mkItem "Phong ban" "/department" (Some ["admin"])];
              mkGroup "Thong ke" [mkItem "Cong no" "/statistic/debts" None]] in
  isAccessible nav [Str "user-cong-no"] "/statistic/debts" = true
  /\ Js.includes "/statistic/debts" (allUrls nav) = true.
Proof.
  intros nav. by apply first_accessible_url_is_accessible.
Defined.

Lemma access_grows_with_roles_witness :
  let nav := [mkGroup "Quan tri" [mkItem "Phong ban" "/department" (Some ["admin"])]] in
  isAccessible nav [Str "user-kho"; Str "admin"] "/department" = true.
Proof.
  intros nav.
  apply (access_grows_with_roles nav [Str "admin"] [Str "user-kho"; Str "admin"]).
  - intros role Hin. by apply list_elem_of_further.
  - reflexivity.
Defined.

Lemma landing_paths_go_to_first_accessible_witness :
  let nav := [mkGroup "Quan tri" [mkItem "Phong ban" "/department" (Some ["admin"])];
              mkGroup "Thong ke" [mkItem "Cong no" "/statistic/debts" None]] in
  let parse := fun _ : string =>
    Some (Obj [("exp", Num 3000); ("roles", Arr [Obj [("name", Str "user-cong-no")]])]) in
  middleware nav parse 2000000 (fun _ => NetworkError)
    (mkRequest "/" "https://host/" (Some "h.p.s") None)
  = mkOutcome (Redirect "/statistic/debts") [].
Proof.
  intros nav parse.
  destruct (landing_paths_go_to_first_accessible nav parse 2000000
              (fun _ => NetworkError)
              (mkRequest "/" "https://host/" (Some "h.p.s") None)) as [Hfirst _].
  - reflexivity.
  - discriminate.
  - apply list_elem_of_here.
  - apply (Hfirst [mkItem "Phong ban" "/department" (Some ["admin"])]
                  (mkItem "Cong no" "/statistic/debts" None) []).
    + reflexivity.
    + intros i Hi. apply list_elem_of_singleton in Hi. by subst.
    + reflexivity.
    + discriminate.
Defined.

Lemma request_for_the_landing_url_witness :
  let nav := [mkGroup "Tong quan" [mkItem "Bang dieu khien" "/dashboard" None]] in
  let parse := fun _ : string => Some (Obj [("exp", Num 3000)]) in
  middleware nav parse 2000000 (fun _ => NetworkError)
    (mkRequest "/dashboard" "https://host/dashboard" (Some "h.p.s") None)
  = mkOutcome (Redirect "/dashboard") [].
Proof.
  intros nav parse.
  destruct (request_for_the_landing_url nav parse 2000000 (fun _ => NetworkError)
              (mkRequest "/dashboard" "https://host/dashboard" (Some "h.p.s") None))
    as [_ Hloop].
  - reflexivity.
  - discriminate.
  - reflexivity.
  - apply Hloop. unfold landing_paths. rewrite !elem_of_cons. auto.
Defined.

Lemma request_without_session_goes_to_login_witness :
  middleware [] (fun _ => None) 2000000 (fun _ => NetworkError)
    (mkRequest "/debt/manage" "https://host/debt/manage" None None)
  = mkOutcome (RedirectToLogin (Some "https://host/debt/manage")) [].
Proof.
  apply (request_without_session_goes_to_login [] (fun _ => None) 2000000
           (fun _ => NetworkError)
           (mkRequest "/debt/manage" "https://host/debt/manage" None None));
    [by left | reflexivity].
Defined.

End GuardFacts.

(** ** The guard and the client-side decoders on the same payload *)

Module DecoderFacts.

Import Json Middleware MiddlewareFacts.
Local Open Scope list_scope.


(** X22. The guard and [getUserFromToken] draw the line of expiry one
    millisecond apart: for a payload with a numeric, positive [exp], the
    guard holds the session valid exactly when [Date.now() < exp * 1000],
    while [getUserFromToken] returns a user exactly when
    [Date.now() <= exp * 1000]. *)
Theorem expiry_line_guard_and_client
    (parse_guard parse_client : string -> option value)
    (to_number : value -> option Z) (now : Z)
    (t : string) (payload : value) (e : Z) :
  t <> "" ->
  parse_guard t = Some payload ->
  parse_client t = Some payload ->
  get payload "exp" = Normal (Some (Num e)) ->
  0 < e ->
  (isValid (decode parse_guard now (Some t)) = true <-> now < e * 1000)
  /\ ((exists user, Auth.getUserFromToken parse_client to_number now t = Some user)
      <-> now <= e * 1000).
Proof.
  intros Ht Hg Hc He Hpos. split.
  - rewrite (decode_token _ _ t payload) by done.
    rewrite read_payload_isValid, He, andb_true_iff, !Z.ltb_lt. tauto.
  - unfold Auth.getUserFromToken. rewrite Hc, He.
    destruct payload; try discriminate. simpl.
    assert (Hnz : (e =? 0) = false) by (apply Z.eqb_neq; lia).
    rewrite Hnz. simpl.
    destruct (Z.ltb_spec (e * 1000) now); split.
    + by intros (user & ?).
    + lia.
    + lia.
    + eauto.
Qed.

Lemma expiry_line_guard_and_client_witness :
  let payload := Obj [("exp", Num 2000)] in
  let parse := fun _ : string => Some payload in
  isValid (decode parse 2000000 (Some "h.p.s")) = false
  /\ exists user, Auth.getUserFromToken parse (fun _ => None) 2000000 "h.p.s" = Some user.
Proof.
  intros payload parse.
  destruct (expiry_line_guard_and_client parse parse (fun _ => None) 2000000
              "h.p.s" payload 2000) as [_ Hclient];
    [discriminate | reflexivity | reflexivity | reflexivity | lia |].
  split; [reflexivity | apply Hclient; lia].
Defined.



(** X24. Role descriptors and bare names are read alike: for names that
    are not empty, a [roles] array of objects [{name}] and the array of
    the names themselves give the same roles, the names as strings. *)
Theorem roles_as_descriptors_or_names (names : list string) :
  Forall (fun n => n <> "") names ->
  map_roles (map (fun n => Obj [("name", Str n)]) names) = Normal (map Str names)
  /\ map_roles (map Str names) = Normal (map Str names).
Proof.
  induction 1 as [|n names Hn _ [IH1 IH2]]; [done|].
  simpl. rewrite IH1, IH2. apply String.eqb_neq in Hn. by rewrite Hn.
Qed.

Lemma roles_as_descriptors_or_names_witness :
  map_roles [Obj [("name", Str "admin")]; Obj [("name", Str "user-kho")]]
  = Normal [Str "admin"; Str "user-kho"].
Proof.
  destruct (roles_as_descriptors_or_names ["admin"; "user-kho"]) as [H _];
    [|exact H].
  repeat constructor; discriminate.
Defined.

(** X25. No roles from a rejected token: whenever [getUserFromToken]
    returns [null] for a token (not decodable, [null] payload, or
    expired), [getUserRolesFromToken] returns the empty list for it. *)
Theorem rejected_token_has_no_roles
    (parse_segment : string -> option value)
    (to_number : value -> option Z) (now : Z) (t : string) :
  Auth.getUserFromToken parse_segment to_number now t = None ->
  AuthRoles.getUserRolesFromToken parse_segment to_number now t = [].
Proof.
  unfold Auth.getUserFromToken, AuthRoles.getUserRolesFromToken.
  destruct (parse_segment t) as [payload|]; [|done].
  destruct payload; simpl; try done;
    match goal with
    | |- context [truthy_opt ?exp && ?b] => by destruct (truthy_opt exp && b)
    end.
Qed.

Lemma rejected_token_has_no_roles_witness :
  let parse := fun _ : string =>
    Some (Obj [("exp", Num 1000); ("roles", Arr [Str "admin"])]) in
  AuthRoles.getUserRolesFromToken parse (fun _ => None) 2000000 "h.p.s" = [].
Proof.
  intros parse. by apply rejected_token_has_no_roles.
Defined.

End DecoderFacts.
